(** * Course progress tracking and chapter ordering of the learning platform

    A shallow embedding of the server-side operations that README.md documents
    under "Core Features Implementation":

    - [createCourse] and [reorderChapters]      (app/api/courses/route.ts)
    - [trackProgress] and [calculateCourseProgress]          (lib/progress.ts)

    together with the part of the Prisma schema they read and write.

    Modelling decisions.
    - A table is the list of its rows, in insertion order.  Uniqueness
      constraints of the schema are predicates on the database
      ([unique_progress]), not part of the type, so that their preservation is
      something to prove.
    - The source reaches the store through the global [prisma] client.  The
      model passes explicitly what the source gets from it implicitly: the
      database, the values drawn by [@default(uuid())], the reading of the
      clock, whether the client has the member that the source names,
      whether the store serves a statement and, for a batch, the statements
      on which the store is forced to fail.
    - A JavaScript [number] that is the result of arithmetic is an IEEE 754
      binary64 value, here a primitive [float].  A [position] is an integer;
      the properties that depend on a position being stored as it is given
      ask that it fits the Int column ([fits_Int]).
    - A progress record carries its [createdAt] and [updatedAt]; the
      timestamps of the other tables play no part in what is proved and are
      left out of their rows. *)

From Stdlib Require Import List ZArith String Bool Lia QArith Qabs FinFun.
From Stdlib Require Import PrimInt63 Uint63 PrimFloat FloatOps SpecFloat.
Import ListNotations.
Close Scope Q_scope.

(** ** Rows of the schema *)

Module Course.
Record t := mk
  { id : string;
    userId : string;
    title : string;
    description : option string;
    imageUrl : option string;
    price : option float;
    isPublished : bool;
    categoryId : option string }.
End Course.

Module Chapter.
Record t := mk
  { id : string;
    title : string;
    description : option string;
    videoUrl : option string;
    position : Z;
    isPublished : bool;
    isFree : bool;
    courseId : string }.

Definition with_position (ch : t) (p : Z) : t :=
  mk (id ch) (title ch) (description ch) (videoUrl ch) p
     (isPublished ch) (isFree ch) (courseId ch).
End Chapter.

Module UserProgress.
Record t := mk
  { id : string;
    userId : string;
    chapterId : string;
    isCompleted : bool;
    createdAt : Z;
    updatedAt : Z }.

(** The row after an update of its flag at time [now]: [@updatedAt] makes the
    store set [updatedAt] on every update. *)
Definition with_isCompleted (p : t) (b : bool) (now : Z) : t :=
  mk (id p) (userId p) (chapterId p) b (createdAt p) now.

(** The compound key of [@@unique([userId, chapterId])]. *)
Definition key (p : t) : string * string := (userId p, chapterId p).
End UserProgress.

Module Purchase.
Record t := mk
  { id : string;
    userId : string;
    courseId : string }.
End Purchase.

(** ** The database *)

(** How the datasource treats [@relation]: the README shows no datasource
    block, so both of Prisma's relation modes are modelled.  With
    [foreignKeys] the database rejects a row whose reference dangles; with
    [prismaMode] (the usual PlanetScale setting) nothing checks it on
    insertion. *)
Inductive RelationMode := foreignKeys | prismaMode.

Record db := mkdb
  { relationMode : RelationMode;
    courses : list Course.t;
    chapters : list Chapter.t;
    userProgress : list UserProgress.t;
    purchases : list Purchase.t }.

Definition with_chapters (st : db) (l : list Chapter.t) : db :=
  mkdb (relationMode st) (courses st) l (userProgress st) (purchases st).

Definition with_userProgress (st : db) (l : list UserProgress.t) : db :=
  mkdb (relationMode st) (courses st) (chapters st) l (purchases st).

(** ** Results of a store call *)

Inductive PrismaError :=
| RecordNotFound              (* P2025: the row to update does not exist *)
| ForeignKeyConstraintFailed  (* P2003 *)
| StoreUnavailable            (* the store refused the statement *)
| TypeError.                  (* a member of the client that is undefined *)

Inductive result (A : Type) :=
| Ok (a : A)
| Err (e : PrismaError).
Arguments Ok {A} a.
Arguments Err {A} e.

(** A call into the store: the database before, the outcome and the database
    that is observable after. *)
Definition Prisma (A : Type) := db -> result A * db.

(** ** JavaScript numbers *)

(** [Array.prototype.length] as a [number].  An array has fewer than 2^32
    elements, far below 2^53, so the conversion is exact on every length that
    can occur. *)
Definition number_of_length (n : nat) : float :=
  PrimFloat.of_uint63 (Uint63.of_Z (Z.of_nat n)).

(** [Array.prototype.map] with the two-argument callback [(x, index) => ...]. *)
Fixpoint map_from {A B} (f : A -> nat -> B) (index : nat) (l : list A) : list B :=
  match l with
  | [] => []
  | x :: l' => f x index :: map_from f (S index) l'
  end.

Definition mapi {A B} (f : A -> nat -> B) (l : list A) : list B :=
  map_from f 0 l.

(** ** app/api/courses/route.ts *)

Record ChapterInput := mkChapterInput
  { in_title : string;
    in_description : option string }.

Record CreateCourseData := mkCreateCourseData
  { data_title : string;
    data_description : option string;
    data_imageUrl : option string;
    data_price : option float;
    data_chapters : list ChapterInput }.

(** The object literal built for each element of [data.chapters]. *)
Record ChapterCreate := mkChapterCreate
  { create_title : string;
    create_description : option string;
    create_position : Z }.

(** [prisma.course.create] with a nested [chapters: { create: [...] }].  The
    course row takes the first drawn uuid, the chapter rows the following
    ones; columns that the call does not give take their schema defaults. *)
Definition course_create (uuid : nat -> string) (userId : string)
    (title : string) (description imageUrl : option string)
    (price : option float) (nested : list ChapterCreate) : Prisma Course.t :=
  fun st =>
    let course :=
      Course.mk (uuid 0%nat) userId title description imageUrl price false None in
    let rows :=
      mapi (fun c i =>
              Chapter.mk (uuid (S i)) (create_title c) (create_description c)
                         None (create_position c) false false (Course.id course))
           nested in
    (Ok course,
     mkdb (relationMode st) (courses st ++ [course]) (chapters st ++ rows)
          (userProgress st) (purchases st)).

Definition createCourse (uuid : nat -> string) (userId : string)
    (data : CreateCourseData) : Prisma Course.t :=
  course_create uuid userId
    (data_title data) (data_description data) (data_imageUrl data)
    (data_price data)
    (mapi (fun chapter index =>
             mkChapterCreate (in_title chapter) (in_description chapter)
                             (Z.of_nat index))
          (data_chapters data)).

(** An element of [updateData]: [{ id: string; position: number }], for a
    position that is an integer. *)
Module Update.
Record t := mk { id : string; position : Z }.
End Update.

(** [prisma.chapter.update({ where: { id }, data: { position } })]: fails when
    no row has that id, otherwise rewrites the position of the row.  How the
    client and the store treat a number that the Int column cannot hold is
    not modelled; what is proved about the value stored asks for
    [fits_Int]. *)
Definition chapter_update (id : string) (position : Z) (st : db) : result db :=
  if existsb (fun ch => String.eqb (Chapter.id ch) id) (chapters st)
  then Ok (with_chapters st
             (map (fun ch => if String.eqb (Chapter.id ch) id
                             then Chapter.with_position ch position else ch)
                  (chapters st)))
  else Err RecordNotFound.

(** The statements of a batch run one after the other on a working copy.
    [faults i] says that the store is forced to fail on statement [i].  The
    run stops at the first failure and hands back the working copy as it is
    at that moment. *)
Fixpoint run_statements (faults : nat -> bool) (i : nat)
    (stmts : list (db -> result db)) (working : db) : option PrismaError * db :=
  match stmts with
  | [] => (None, working)
  | s :: rest =>
      if faults i then (Some StoreUnavailable, working)
      else match s working with
           | Ok working' => run_statements faults (S i) rest working'
           | Err e => (Some e, working)
           end
  end.

(** [prisma.$transaction([...])]: commit the working copy when every
    statement succeeded, otherwise roll back to the snapshot. *)
Definition transaction (faults : nat -> bool)
    (stmts : list (db -> result db)) : Prisma unit :=
  fun st =>
    match run_statements faults 0 stmts st with
    | (None, working) => (Ok tt, working)
    | (Some e, _) => (Err e, st)
    end.

Definition reorderChapters (faults : nat -> bool) (courseId : string)
    (updateData : list Update.t) : Prisma unit :=
  let transaction_ :=
    map (fun chapter => chapter_update (Update.id chapter) (Update.position chapter))
        updateData in
  transaction faults transaction_.

(** ** lib/progress.ts *)

Definition has_key (userId chapterId : string) (p : UserProgress.t) : bool :=
  String.eqb (UserProgress.userId p) userId
  && String.eqb (UserProgress.chapterId p) chapterId.

Definition chapter_exists (chapterId : string) (st : db) : bool :=
  existsb (fun ch => String.eqb (Chapter.id ch) chapterId) (chapters st).

(** What a call of [trackProgress] takes from outside the database.

    [has_chapterProgress]: the source calls [prisma.chapterProgress.upsert].
    The schema in the README names the model with the [userId_chapterId] key
    [UserProgress], for which the generated client has [prisma.userProgress]
    and no [prisma.chapterProgress]; the member exists only where the
    deployed schema names or maps the model so.  [false] is the client of the
    README schema.

    [store_up]: the store serves the statement.  [now]: the reading of the
    clock, for [@default(now())] and [@updatedAt].  [uuid_drawn]: the value
    of [@default(uuid())] if a row is created. *)
Record Env := mkEnv
  { has_chapterProgress : bool;
    store_up : bool;
    now : Z;
    uuid_drawn : string }.

(** [upsert({ where: { userId_chapterId }, update, create })] on the progress
    table.  A store that does not answer fails the call.  When a row has the
    key its flag is overwritten and its [updatedAt] set; otherwise a row is
    inserted, which a datasource with foreign keys refuses when the chapter
    does not exist. *)
Definition upsert (env : Env)
    (where_userId where_chapterId : string)
    (update_isCompleted : bool)
    (create_userId create_chapterId : string) (create_isCompleted : bool)
    : Prisma UserProgress.t :=
  fun st =>
    if store_up env then
      match find (has_key where_userId where_chapterId) (userProgress st) with
      | Some row =>
          (Ok (UserProgress.with_isCompleted row update_isCompleted (now env)),
           with_userProgress st
             (map (fun p => if has_key where_userId where_chapterId p
                            then UserProgress.with_isCompleted
                                   p update_isCompleted (now env)
                            else p)
                  (userProgress st)))
      | None =>
          match relationMode st, chapter_exists create_chapterId st with
          | foreignKeys, false => (Err ForeignKeyConstraintFailed, st)
          | _, _ =>
              let row :=
                UserProgress.mk (uuid_drawn env) create_userId create_chapterId
                                create_isCompleted (now env) (now env) in
              (Ok row, with_userProgress st (userProgress st ++ [row]))
          end
      end
    else (Err StoreUnavailable, st).

(** [trackProgress]: the member access [prisma.chapterProgress] comes first
    and throws when the client has no such member; nothing is sent to the
    store then. *)
Definition trackProgress (env : Env) (userId chapterId : string)
    (isCompleted : bool) : Prisma UserProgress.t :=
  fun st =>
    if has_chapterProgress env
    then upsert env userId chapterId isCompleted userId chapterId isCompleted st
    else (Err TypeError, st).

(** [prisma.chapter.findMany({ where: { courseId, isPublished: true },
    include: { userProgress: { where: { userId } } } })]: every selected
    chapter comes with its progress rows of that user. *)
Definition findMany (courseId userId : string) (st : db)
    : list (Chapter.t * list UserProgress.t) :=
  map (fun ch =>
         (ch,
          filter (fun p => String.eqb (UserProgress.chapterId p) (Chapter.id ch)
                           && String.eqb (UserProgress.userId p) userId)
                 (userProgress st)))
      (filter (fun ch => String.eqb (Chapter.courseId ch) courseId
                         && Chapter.isPublished ch)
              (chapters st)).

Definition calculateCourseProgress (userId courseId : string) : Prisma float :=
  fun st =>
    let chapters := findMany courseId userId st in
    let completedChapters :=
      filter (fun chapter => existsb UserProgress.isCompleted (snd chapter))
             chapters in
    (Ok (PrimFloat.mul
           (PrimFloat.div (number_of_length (List.length completedChapters))
                          (number_of_length (List.length chapters)))
           100%float),
     st).

(** ** lib/stripe.ts *)

(** The integer nearest to the value (-1)^s * m * 2^e of a binary64 number
    with a negative exponent, a tie going toward +infinity: the floor of the
    value plus one half. *)
Definition nearest_integer (s : bool) (m : positive) (e : Z) : Z :=
  (((if s then Z.neg m else Z.pos m) * 2 + 2 ^ (- e)) / 2 ^ (1 - e))%Z.

(** [Math.round]: the integer nearest to [x], a tie going toward +infinity.
    NaN, the infinities and the zeros are returned as they are, a value that
    is already an integer likewise, and a negative value that rounds to zero
    gives -0. *)
Definition Math_round (x : float) : float :=
  match Prim2SF x with
  | S754_finite s m e =>
      if (0 <=? e)%Z then x
      else
        let n := nearest_integer s m e in
        if (n =? 0)%Z then (if s then neg_zero else zero)
        else if (n <? 0)%Z
             then PrimFloat.opp (PrimFloat.of_uint63 (Uint63.of_Z (- n)))
             else PrimFloat.of_uint63 (Uint63.of_Z n)
  | _ => x
  end.

(** A nullable [Float?] column used as an operand of [*]: [null] converts
    to 0. *)
Definition to_number (x : option float) : float :=
  match x with
  | Some v => v
  | None => zero
  end.

(** A possibly undefined string inside a template literal. *)
Definition to_template (x : option string) : string :=
  match x with
  | Some v => v
  | None => "undefined"
  end.

Record LineItem := mkLineItem
  { currency : string;
    product_name : string;
    product_description : option string;
    unit_amount : float;
    quantity : Z }.

(** The argument of [stripe.checkout.sessions.create]. *)
Record SessionParams := mkSessionParams
  { customer_email : string;
    payment_method_types : list string;
    line_items : list LineItem;
    mode : string;
    success_url : string;
    cancel_url : string;
    metadata_courseId : string;
    metadata_userId : string }.

(** [throw new Error(message)]. *)
Inductive Thrown := Error (message : string).

(** [prisma.course.findUnique({ where: { id } })]. *)
Definition course_findUnique (id : string) (st : db) : option Course.t :=
  find (fun c => String.eqb (Course.id c) id) (courses st).

(** [createCheckoutSession] up to the call of the payment provider: either
    the error thrown or the session request that is sent.  The snippet reads
    [user.email] from a [user] it does not bind and the application URL from
    the process environment; both are inputs here.  The database is read,
    never written. *)
Definition createCheckoutSession (NEXT_PUBLIC_APP_URL : option string)
    (user_email : string) (userId courseId : string) (st : db)
    : Thrown + SessionParams :=
  match course_findUnique courseId st with
  | None => inl (Error "Course not found")
  | Some course =>
      inr (mkSessionParams
             user_email
             ["card"%string]
             [mkLineItem "usd" (Course.title course) (Course.description course)
                         (Math_round
                            (PrimFloat.mul (to_number (Course.price course))
                                           100%float))
                         1]
             "payment"
             (to_template NEXT_PUBLIC_APP_URL ++ "/courses/" ++ courseId
              ++ "?success=1")%string
             (to_template NEXT_PUBLIC_APP_URL ++ "/courses/" ++ courseId
              ++ "?canceled=1")%string
             courseId userId)
  end.

(** * Specification-side notions and scenarios *)

(** What one update does to a position, seen from a chapter. *)
Definition apply_update (ch : Chapter.t) (pos : Z) (u : Update.t) : Z :=
  if String.eqb (Chapter.id ch) (Update.id u) then Update.position u else pos.

(** The position a batch leaves a chapter with: every update that names the
    chapter overwrites it in turn, so the last one stands. *)
Definition final_position (updateData : list Update.t) (ch : Chapter.t) : Z :=
  fold_left (apply_update ch) updateData (Chapter.position ch).

Definition reposition (updateData : list Update.t) (ch : Chapter.t) : Chapter.t :=
  Chapter.with_position ch (final_position updateData ch).

Definition names (id : string) (u : Update.t) : Prop := Update.id u = id.

Definition no_faults : nat -> bool := fun _ => false.

(** Position uniqueness within a course: no two rows of the chapter table
    agree on both course and position. *)
Definition course_position (ch : Chapter.t) : string * Z :=
  (Chapter.courseId ch, Chapter.position ch).

Definition unique_positions (st : db) : Prop :=
  NoDup (map course_position (chapters st)).

(** The scenario of the specification: chapters A, B, C of one course at
    positions 0, 1, 2, published and not free. *)
Definition chapter_at (id courseId : string) (position : Z) : Chapter.t :=
  Chapter.mk id id None None position true false courseId.

Definition abc : db :=
  mkdb prismaMode []
       [chapter_at "A" "course" 0; chapter_at "B" "course" 1;
        chapter_at "C" "course" 2]
       [] [].

Definition swap_A_C : list Update.t :=
  [Update.mk "A" 2; Update.mk "C" 0].

Definition positions (st : db) : list (string * Z) :=
  map (fun ch => (Chapter.id ch, Chapter.position ch)) (chapters st).

(** The store is forced to fail on the second statement of the batch. *)
Definition fails_on_second : nat -> bool := fun i => Nat.eqb i 1.

(** The constraint [@@unique([userId, chapterId])]. *)
Definition unique_progress (st : db) : Prop :=
  NoDup (map UserProgress.key (userProgress st)).

(** What the update branch of the upsert does to a row. *)
Definition overwrite (userId chapterId : string) (flag : bool) (now : Z)
    (p : UserProgress.t) : UserProgress.t :=
  if has_key userId chapterId p
  then UserProgress.with_isCompleted p flag now else p.


(** The row that the create branch of the upsert inserts. *)
Definition new_row (env : Env) (userId chapterId : string) (flag : bool)
    : UserProgress.t :=
  UserProgress.mk (uuid_drawn env) userId chapterId flag (now env) (now env).

(** The client has the member and the store answers. *)
Definition served (env : Env) : bool :=
  has_chapterProgress env && store_up env.

(** A client that has [prisma.chapterProgress] and a store that answers, at
    a given time and with a given uuid to draw. *)
Definition client_at (now : Z) (uuid : string) : Env :=
  mkEnv true true now uuid.

(** The client generated from the schema as the README shows it. *)
Definition readme_client (now : Z) (uuid : string) : Env :=
  mkEnv false true now uuid.

(** What a progress row says, apart from its id and its time of creation. *)
Definition content (p : UserProgress.t) : string * string * bool * Z :=
  (UserProgress.userId p, UserProgress.chapterId p,
   UserProgress.isCompleted p, UserProgress.updatedAt p).

(** The database with other purchases and other free flags. *)
Definition with_entitlements (st : db) (purchases' : list Purchase.t)
    (free : Chapter.t -> bool) : db :=
  mkdb (relationMode st) (courses st)
       (map (fun ch =>
               Chapter.mk (Chapter.id ch) (Chapter.title ch)
                          (Chapter.description ch) (Chapter.videoUrl ch)
                          (Chapter.position ch) (Chapter.isPublished ch)
                          (free ch) (Chapter.courseId ch))
            (chapters st))
       (userProgress st) purchases'.

(** A position that the Int column of the chapter table holds as it is. *)
Definition fits_Int (position : Z) : Prop :=
  (- 2 ^ 31 <= position < 2 ^ 31)%Z.

(** Chapters of two courses. *)
Definition two_courses : db :=
  mkdb prismaMode []
       [chapter_at "A" "course" 0; chapter_at "B" "course" 1;
        chapter_at "D" "another course" 0]
       [] [].

(** A store with one paid chapter, no purchase and no progress yet. *)
Definition paid_chapter : db :=
  mkdb foreignKeys [] [chapter_at "chapter1" "course" 0] [] [].

(** The specification's reading of the figure, in its own words: the number
    of list elements that have a property. *)
Inductive counts {A : Type} (P : A -> Prop) : list A -> nat -> Prop :=
| counts_nil : counts P [] 0
| counts_hit x l n : P x -> counts P l n -> counts P (x :: l) (S n)
| counts_miss x l n : ~ P x -> counts P l n -> counts P (x :: l) n.

(** A published chapter of the course. *)
Definition published_in (courseId : string) (ch : Chapter.t) : Prop :=
  Chapter.courseId ch = courseId /\ Chapter.isPublished ch = true.

(** The user has a progress record for the chapter whose flag is true. *)
Definition completed_by (st : db) (userId : string) (ch : Chapter.t) : Prop :=
  exists p,
    In p (userProgress st)
    /\ UserProgress.userId p = userId
    /\ UserProgress.chapterId p = Chapter.id ch
    /\ UserProgress.isCompleted p = true.

(** [(k / N) * 100] on JavaScript numbers. *)
Definition percentage (k N : nat) : float :=
  PrimFloat.mul (PrimFloat.div (number_of_length k) (number_of_length N))
                100%float.

(** The rational number that a finite binary64 value denotes. *)
Definition Q_of_float (x : float) : option Q :=
  match Prim2SF x with
  | S754_zero _ => Some 0%Q
  | S754_finite s m e =>
      Some ((if s then -1 else 1) * (Zpos m # 1) * Qpower 2 e)%Q
  | _ => None
  end.

(** 100 k / N as a rational number. *)
Definition exact_percentage (k N : nat) : Q :=
  (100 * Z.of_nat k # Pos.of_nat N).

(** One unit in the last place of a binary64 value between 64 and 128. *)
Definition ulp_100 : Q := (1 # 2 ^ 46).

Definition within_ulp (k N : nat) : bool :=
  match Q_of_float (percentage k N) with
  | Some q => Qle_bool (Qabs (q - exact_percentage k N)) ulp_100
  | None => false
  end.

(** Boolean forms of the two properties, as the query and the filter of the
    source compute them. *)
Definition selected (courseId : string) (ch : Chapter.t) : bool :=
  String.eqb (Chapter.courseId ch) courseId && Chapter.isPublished ch.

Definition included (st : db) (userId : string) (ch : Chapter.t)
    : list UserProgress.t :=
  filter (fun p => String.eqb (UserProgress.chapterId p) (Chapter.id ch)
                   && String.eqb (UserProgress.userId p) userId)
         (userProgress st).

(** The progress table and chapters of the specification's scenario: chapters
    1 and 2 published, chapter 3 not; the user completed chapter 1 and has an
    unset record for chapter 2. *)
Definition scenario : db :=
  mkdb prismaMode []
       [Chapter.mk "chapter1" "One" None None 0 true false "course";
        Chapter.mk "chapter2" "Two" None None 1 true false "course";
        Chapter.mk "chapter3" "Three" None None 2 false false "course"]
       [UserProgress.mk "p1" "U" "chapter1" true 10 20;
        UserProgress.mk "p2" "U" "chapter2" false 30 30]
       [].

Definition empty_db : db := mkdb prismaMode [] [] [] [].

Definition two_chapter_course : CreateCourseData :=
  mkCreateCourseData "Rocq" None None None
    [mkChapterInput "Intro" None; mkChapterInput "Tactics" None].

Definition uuids (n : nat) : string :=
  match n with
  | 0%nat => "course"
  | 1%nat => "chapter1"
  | 2%nat => "chapter2"
  | _ => "chapter"
  end.

(** The rows that [createCourse] adds to the chapter table. *)
Definition created_chapters (uuid : nat -> string) (data : CreateCourseData)
    : list Chapter.t :=
  mapi (fun chapter index =>
          Chapter.mk (uuid (S index)) (in_title chapter) (in_description chapter)
                     None (Z.of_nat index) false false (uuid 0%nat))
       (data_chapters data).

(** The primary key of the chapter table. *)
Definition unique_chapter_ids (st : db) : Prop :=
  NoDup (map Chapter.id (chapters st)).


(** The request that exchanges the positions of two chapters. *)
Definition swap (a b : Chapter.t) : list Update.t :=
  [Update.mk (Chapter.id a) (Chapter.position b);
   Update.mk (Chapter.id b) (Chapter.position a)].

(** The number of published chapters of a course a check is run up to. *)
Definition checked_courses : nat := 100.

(** The rational value of a number lies between two integers. *)
Definition float_between (lo hi : Z) (x : float) : bool :=
  match Q_of_float x with
  | Some q => Qle_bool (inject_Z lo) q && Qle_bool q (inject_Z hi)
  | None => false
  end.

(** For a course of [N] published chapters: every possible result lies
    between 0 and 100, all chapters completed gives exactly 100 and none
    gives exactly 0. *)
Definition percentage_in_range (N : nat) : bool :=
  forallb (fun k => float_between 0 100 (percentage k N)) (seq 0 (S N))
  && float_between 100 100 (percentage N N)
  && float_between 0 0 (percentage 0 N).

(** A price of [cents] hundredths, as the number nearest to it. *)
Definition price_of_cents (cents : Z) : float :=
  PrimFloat.div (PrimFloat.of_uint63 (Uint63.of_Z cents)) 100%float.

(** [x] is a fraction that [Math.round] takes to the positive integer
    [n]. *)
Definition rounds_to (x : float) (n : Z) : bool :=
  match Prim2SF x with
  | S754_finite s m e =>
      (e <? 0)%Z && (nearest_integer s m e =? n)%Z && (0 <? n)%Z
  | _ => false
  end.

Definition cents_recovered (cents : Z) : bool :=
  rounds_to (PrimFloat.mul (price_of_cents cents) 100%float) cents.

(** The prices a check is run over: 1 to 2^16 hundredths, that is up to
    655.36. *)
Definition checked_cents_depth : nat := 16.

(** [P] on the 2^depth integers from [lo] on. *)
Fixpoint check_range (P : Z -> bool) (lo : Z) (depth : nat) : bool :=
  match depth with
  | O => P lo
  | S d => check_range P lo d && check_range P (lo + 2 ^ Z.of_nat d) d
  end.

(** * Properties *)

(** ** Record bookkeeping *)

Lemma with_position_same (ch : Chapter.t) :
  Chapter.with_position ch (Chapter.position ch) = ch.
Proof. now destruct ch. Qed.

Lemma with_chapters_same (st : db) : with_chapters st (chapters st) = st.
Proof. now destruct st. Qed.

Lemma with_chapters_twice (st : db) (l l' : list Chapter.t) :
  with_chapters (with_chapters st l) l' = with_chapters st l'.
Proof. reflexivity. Qed.

(** ** Chapter reordering *)

Lemma fold_apply_update_untouched (ch : Chapter.t) (l : list Update.t) (pos : Z) :
  Forall (fun u => ~ names (Chapter.id ch) u) l ->
  fold_left (apply_update ch) l pos = pos.
Proof.
  induction 1 as [|u l Hu _ IH]; simpl; [reflexivity|].
  unfold apply_update at 2.
  destruct (String.eqb_spec (Chapter.id ch) (Update.id u)) as [E|_].
  - exfalso. apply Hu. unfold names. now symmetry.
  - exact IH.
Qed.

(** A chapter that no update names keeps its position. *)
Lemma final_position_untouched (updateData : list Update.t) (ch : Chapter.t) :
  Forall (fun u => ~ names (Chapter.id ch) u) updateData ->
  final_position updateData ch = Chapter.position ch.
Proof. apply fold_apply_update_untouched. Qed.

(** A chapter takes the position of the last update that names it. *)
Lemma final_position_last (before after : list Update.t) (u : Update.t)
    (ch : Chapter.t) :
  names (Chapter.id ch) u ->
  Forall (fun v => ~ names (Chapter.id ch) v) after ->
  final_position (before ++ u :: after) ch = Update.position u.
Proof.
  intros Hu Hafter. unfold final_position.
  rewrite fold_left_app. simpl.
  rewrite fold_apply_update_untouched by assumption.
  unfold apply_update, names in *. rewrite Hu. now rewrite String.eqb_refl.
Qed.

Lemma reposition_nil (ch : Chapter.t) : reposition [] ch = ch.
Proof. unfold reposition, final_position. simpl. apply with_position_same. Qed.

Lemma reposition_cons (u : Update.t) (rest : list Update.t) (ch : Chapter.t) :
  reposition rest
    (if String.eqb (Chapter.id ch) (Update.id u)
     then Chapter.with_position ch (Update.position u) else ch)
  = reposition (u :: rest) ch.
Proof.
  unfold reposition, final_position. simpl. unfold apply_update at 3.
  destruct (String.eqb (Chapter.id ch) (Update.id u)); reflexivity.
Qed.

Lemma chapter_update_ok (id : string) (pos : Z) (st st' : db) :
  chapter_update id pos st = Ok st' ->
  st' = with_chapters st
          (map (fun ch => if String.eqb (Chapter.id ch) id
                          then Chapter.with_position ch pos else ch)
               (chapters st)).
Proof.
  unfold chapter_update.
  destruct (existsb _ _); intros H; inversion H; reflexivity.
Qed.

(** A run that reports no error has applied the whole batch. *)
Lemma run_statements_ok (faults : nat -> bool) (updateData : list Update.t) :
  forall (i : nat) (working working' : db),
    run_statements faults i
      (map (fun c => chapter_update (Update.id c) (Update.position c)) updateData)
      working = (None, working') ->
    working' = with_chapters working (map (reposition updateData) (chapters working)).
Proof.
  induction updateData as [|u rest IH]; simpl; intros i w w' H.
  - inversion H; subst.
    rewrite (map_ext _ (fun ch => ch)) by apply reposition_nil.
    rewrite map_id. symmetry. apply with_chapters_same.
  - destruct (faults i); [discriminate|].
    destruct (chapter_update (Update.id u) (Update.position u) w) as [w1|e] eqn:E;
      [|discriminate].
    apply chapter_update_ok in E. apply IH in H. subst w1 w'.
    simpl. rewrite with_chapters_twice, map_map. f_equal.
    apply map_ext. intros ch. apply reposition_cons.
Qed.

Lemma chapter_exists_with_chapters_map (id : string) (st : db)
    (f : Chapter.t -> Chapter.t) :
  (forall ch, Chapter.id (f ch) = Chapter.id ch) ->
  chapter_exists id (with_chapters st (map f (chapters st))) = chapter_exists id st.
Proof.
  intros Hf. unfold chapter_exists. simpl.
  induction (chapters st) as [|ch l IH]; simpl; [reflexivity|].
  now rewrite Hf, IH.
Qed.

(** A batch whose ids all exist runs to the end when the store does not fail. *)
Lemma run_statements_succeeds (faults : nat -> bool) (updateData : list Update.t) :
  (forall i, faults i = false) ->
  forall (i : nat) (working : db),
    Forall (fun u => chapter_exists (Update.id u) working = true) updateData ->
    fst (run_statements faults i
           (map (fun c => chapter_update (Update.id c) (Update.position c)) updateData)
           working) = None.
Proof.
  intros Hf. induction updateData as [|u rest IH]; simpl; intros i w Hall.
  - reflexivity.
  - rewrite Hf. inversion Hall as [|? ? Hu Hrest]; subst.
    unfold chapter_update at 1. unfold chapter_exists in Hu. rewrite Hu.
    apply IH. eapply Forall_impl; [|exact Hrest].
    intros v Hv. simpl in Hv.
    rewrite chapter_exists_with_chapters_map; [exact Hv|].
    intros ch. now destruct (String.eqb _ _).
Qed.

(** The two outcomes of [reorderChapters]. *)
Lemma reorderChapters_outcome (faults : nat -> bool) (courseId : string)
    (updateData : list Update.t) (st : db) :
  reorderChapters faults courseId updateData st
    = (Ok tt, with_chapters st (map (reposition updateData) (chapters st)))
  \/ exists e, reorderChapters faults courseId updateData st = (Err e, st).
Proof.
  unfold reorderChapters, transaction.
  destruct (run_statements faults 0 _ st) as [[e|] w] eqn:E.
  - right. now exists e.
  - left. apply run_statements_ok in E. now subst w.
Qed.

Lemma reorderChapters_ok (faults : nat -> bool) (courseId : string)
    (updateData : list Update.t) (st st' : db) :
  reorderChapters faults courseId updateData st = (Ok tt, st') ->
  st' = with_chapters st (map (reposition updateData) (chapters st)).
Proof.
  intros H.
  destruct (reorderChapters_outcome faults courseId updateData st) as [E|[e E]];
    rewrite E in H; [now inversion H | discriminate].
Qed.

Lemma reorderChapters_succeeds (faults : nat -> bool) (courseId : string)
    (updateData : list Update.t) (st : db) :
  (forall i, faults i = false) ->
  Forall (fun u => chapter_exists (Update.id u) st = true) updateData ->
  reorderChapters faults courseId updateData st
    = (Ok tt, with_chapters st (map (reposition updateData) (chapters st))).
Proof.
  intros Hf Hall.
  pose proof (run_statements_succeeds faults updateData Hf 0%nat st Hall) as Hrun.
  destruct (reorderChapters_outcome faults courseId updateData st) as [E|[e E]];
    [exact E|].
  exfalso. unfold reorderChapters, transaction in E.
  destruct (run_statements faults 0 _ st) as [[e'|] w]; simpl in Hrun;
    [discriminate Hrun | discriminate E].
Qed.

(** C3. Reordering is all or nothing.  For every batch, every store and every
    plan of forced store failures, [reorderChapters] either succeeds and
    leaves every chapter at the position the whole batch gives it, or fails
    and leaves the database exactly as it was before the call.  On chapters
    A, B, C at positions 0, 1, 2 the request that swaps A and C succeeds with
    C at 0, B at 1 and A at 2.  When the store is forced to fail on the second
    statement of that request, the working copy has already moved A, yet the
    database observable after the call is the one before it. *)
Theorem reorderChapters_atomic :
  (forall faults courseId updateData st,
      reorderChapters faults courseId updateData st
        = (Ok tt, with_chapters st (map (reposition updateData) (chapters st)))
      \/ exists e, reorderChapters faults courseId updateData st = (Err e, st))
  /\ (forall courseId,
        exists st',
          reorderChapters no_faults courseId swap_A_C abc = (Ok tt, st')
          /\ positions st'
             = [("A"%string, 2%Z); ("B"%string, 1%Z); ("C"%string, 0%Z)])
  /\ (forall courseId,
        exists working,
          run_statements fails_on_second 0
            (map (fun c => chapter_update (Update.id c) (Update.position c))
                 swap_A_C)
            abc = (Some StoreUnavailable, working)
          /\ positions working
             = [("A"%string, 2%Z); ("B"%string, 1%Z); ("C"%string, 2%Z)]
          /\ reorderChapters fails_on_second courseId swap_A_C abc
             = (Err StoreUnavailable, abc)).
Proof.
  split; [|split].
  - intros. apply reorderChapters_outcome.
  - intros courseId. eexists. split; reflexivity.
  - intros courseId. eexists. repeat split; reflexivity.
Qed.

(** A failure that the batch itself causes: the second update names a chapter
    that does not exist.  The first update is undone with the rest. *)
Example reorderChapters_unknown_id :
  reorderChapters no_faults "course"
    [Update.mk "A" 2; Update.mk "Z" 0; Update.mk "C" 0] abc
  = (Err RecordNotFound, abc).
Proof. reflexivity. Qed.

(** C6 as the specification words it fails: moving A onto the position of B
    is accepted, and two chapters of one course then share position 1. *)
Lemma reorderChapters_accepts_duplicates :
  unique_positions abc
  /\ exists st',
       reorderChapters no_faults "course" [Update.mk "A" 1] abc = (Ok tt, st')
       /\ positions st'
          = [("A"%string, 1%Z); ("B"%string, 1%Z); ("C"%string, 2%Z)]
       /\ ~ unique_positions st'.
Proof.
  split.
  - unfold unique_positions. simpl.
    repeat constructor; simpl; intuition discriminate.
  - eexists. split; [reflexivity|]. split; [reflexivity|].
    unfold unique_positions. simpl. intros H.
    inversion H as [|? ? Hnotin _]; subst. apply Hnotin. now left.
Qed.

Lemma final_position_named (updateData : list Update.t) (u : Update.t)
    (ch : Chapter.t) :
  NoDup (map Update.id updateData) ->
  In u updateData ->
  Chapter.id ch = Update.id u ->
  final_position updateData ch = Update.position u.
Proof.
  intros Hnd Hin Hid.
  destruct (in_split _ _ Hin) as (before & after & ->).
  apply final_position_last; [unfold names; now symmetry|].
  rewrite map_app in Hnd. simpl in Hnd. apply NoDup_remove_2 in Hnd.
  apply Forall_forall. intros v Hv Hname. apply Hnd.
  apply in_or_app. right. unfold names in Hname.
  rewrite <- Hid, <- Hname. now apply in_map.
Qed.

Lemma final_position_unnamed (updateData : list Update.t) (ch : Chapter.t) :
  (forall u, In u updateData -> Update.id u <> Chapter.id ch) ->
  final_position updateData ch = Chapter.position ch.
Proof.
  intros H. apply final_position_untouched. apply Forall_forall.
  intros u Hu. unfold names. now apply H.
Qed.

Lemma NoDup_map_injective {A B} (g : A -> B) (l : list A) :
  NoDup (map g l) ->
  forall x y, In x l -> In y l -> g x = g y -> x = y.
Proof.
  induction l as [|a l IH]; simpl; intros Hnd x y Hx Hy Hg; [contradiction|].
  inversion Hnd as [|? ? Hnotin Hnd']; subst.
  destruct Hx as [->|Hx], Hy as [->|Hy].
  - reflexivity.
  - exfalso. apply Hnotin. rewrite Hg. now apply in_map.
  - exfalso. apply Hnotin. rewrite <- Hg. now apply in_map.
  - now apply IH.
Qed.

Lemma chapter_exists_of_in (ch : Chapter.t) (st : db) :
  In ch (chapters st) -> chapter_exists (Chapter.id ch) st = true.
Proof.
  intros Hin. unfold chapter_exists. apply existsb_exists.
  exists ch. split; [exact Hin | apply String.eqb_refl].
Qed.

(** C6, amended. [reorderChapters] checks nothing about uniqueness and has no
    Conflict outcome.  (1) Moving a chapter onto the position that another
    chapter of its course holds is accepted, and the two chapters then share
    that position.  (2) A batch that renumbers all the chapters of one
    course, each named once, with pairwise distinct positions that fit the
    Int column succeeds, gives every chapter the position listed for it and
    leaves positions pairwise distinct within every course.  Both for a
    store that does not fail and ids that exist. *)
Theorem reorderChapters_no_conflict :
  forall courseId st,
    (forall a b,
        In a (chapters st) -> In b (chapters st) ->
        Chapter.id a <> Chapter.id b ->
        Chapter.courseId a = Chapter.courseId b ->
        fits_Int (Chapter.position b) ->
        exists st',
          reorderChapters no_faults courseId
            [Update.mk (Chapter.id a) (Chapter.position b)] st = (Ok tt, st')
          /\ In (Chapter.with_position a (Chapter.position b)) (chapters st')
          /\ In b (chapters st')
          /\ ~ unique_positions st')
    /\ (forall updateData course,
          unique_chapter_ids st ->
          unique_positions st ->
          NoDup (map Update.id updateData) ->
          NoDup (map Update.position updateData) ->
          Forall (fun u => fits_Int (Update.position u)) updateData ->
          (forall u, In u updateData ->
                     exists ch, In ch (chapters st)
                                /\ Chapter.id ch = Update.id u
                                /\ Chapter.courseId ch = course) ->
          (forall ch, In ch (chapters st) -> Chapter.courseId ch = course ->
                      exists u, In u updateData /\ Update.id u = Chapter.id ch) ->
          exists st',
            reorderChapters no_faults courseId updateData st = (Ok tt, st')
            /\ unique_positions st'
            /\ forall u ch, In u updateData -> In ch (chapters st) ->
                            Chapter.id ch = Update.id u ->
                            In (Chapter.with_position ch (Update.position u))
                               (chapters st')).
Proof.
  intros courseId st. split.
  - intros a b Ha Hb Hab Hcourse _.
    eexists. split.
    { apply reorderChapters_succeeds; [reflexivity|].
      repeat constructor. simpl. now apply chapter_exists_of_in. }
    simpl. split; [|split].
    + apply in_map_iff. exists a. split; [|exact Ha].
      unfold reposition, final_position, apply_update. simpl.
      now rewrite String.eqb_refl.
    + apply in_map_iff. exists b. split; [|exact Hb].
      unfold reposition, final_position, apply_update. simpl.
      destruct (String.eqb_spec (Chapter.id b) (Chapter.id a)) as [E|_];
        [now elim Hab|].
      apply with_position_same.
    + unfold unique_positions. simpl. rewrite map_map. intros Hnd.
      apply Hab. f_equal.
      apply (NoDup_map_injective _ _ Hnd a b Ha Hb).
      unfold course_position, reposition, final_position, apply_update. simpl.
      rewrite String.eqb_refl.
      destruct (String.eqb_spec (Chapter.id b) (Chapter.id a)) as [E|_];
        [now elim Hab|].
      now rewrite Hcourse.
  - intros updateData course Hids Hpos Hbatch_ids Hbatch_pos _ Hnamed Hall.
    pose proof (NoDup_map_injective Chapter.id (chapters st) Hids) as Hid_inj.
    pose proof (NoDup_map_injective course_position (chapters st) Hpos)
      as Hpos_inj.
    pose proof (NoDup_map_injective Update.position updateData Hbatch_pos)
      as Hupd_inj.
    eexists. split.
    { apply reorderChapters_succeeds; [reflexivity|].
      apply Forall_forall. intros u Hu.
      destruct (Hnamed u Hu) as (ch & Hin & Hid & _).
      rewrite <- Hid. now apply chapter_exists_of_in. }
    simpl. split.
    + unfold unique_positions. simpl. rewrite map_map.
      apply Injective_map_NoDup_in; [|exact (NoDup_map_inv _ _ Hids)].
      assert (Hother : forall x, In x (chapters st) ->
                 Chapter.courseId x <> course ->
                 final_position updateData x = Chapter.position x).
      { intros x Hx Hc. apply final_position_unnamed. intros u Hu Hid.
        destruct (Hnamed u Hu) as (ch & Hin & Hch & Hcourse).
        apply Hc. rewrite <- Hcourse. f_equal.
        apply Hid_inj; [exact Hx | exact Hin | congruence]. }
      intros x y Hx Hy Hxy.
      unfold course_position, reposition in Hxy. simpl in Hxy.
      inversion Hxy as [[Hc Hp]].
      destruct (string_dec (Chapter.courseId x) course) as [Hcx|Hcx].
      * destruct (Hall x Hx Hcx) as (ux & Hux & Hidx).
        destruct (Hall y Hy (eq_trans (eq_sym Hc) Hcx)) as (uy & Huy & Hidy).
        rewrite (final_position_named updateData ux x Hbatch_ids Hux
                   (eq_sym Hidx)) in Hp.
        rewrite (final_position_named updateData uy y Hbatch_ids Huy
                   (eq_sym Hidy)) in Hp.
        pose proof (Hupd_inj ux uy Hux Huy Hp) as Hu. subst uy.
        apply Hid_inj; [exact Hx | exact Hy | congruence].
      * rewrite (Hother x Hx Hcx) in Hp.
        rewrite (Hother y Hy) in Hp by congruence.
        apply Hpos_inj; [exact Hx | exact Hy |].
        unfold course_position. congruence.
    + intros u ch Hu Hch Hid. apply in_map_iff. exists ch.
      split; [|exact Hch]. unfold reposition. f_equal.
      now apply final_position_named.
Qed.

Lemma reorderChapters_no_conflict_witness :
  (exists st',
      reorderChapters no_faults "course"
        [Update.mk "A" 1] abc = (Ok tt, st')
      /\ In (chapter_at "A" "course" 1) (chapters st')
      /\ In (chapter_at "B" "course" 1) (chapters st')
      /\ ~ unique_positions st')
  /\ (exists st',
        reorderChapters no_faults "course"
          [Update.mk "C" 0; Update.mk "A" 1; Update.mk "B" 2] abc = (Ok tt, st')
        /\ unique_positions st'
        /\ forall u ch,
             In u [Update.mk "C" 0; Update.mk "A" 1; Update.mk "B" 2] ->
             In ch (chapters abc) ->
             Chapter.id ch = Update.id u ->
             In (Chapter.with_position ch (Update.position u)) (chapters st')).
Proof.
  split.
  - apply (proj1 (reorderChapters_no_conflict "course" abc)
             (chapter_at "A" "course" 0) (chapter_at "B" "course" 1)).
    + simpl. now left.
    + simpl. right. now left.
    + discriminate.
    + reflexivity.
    + unfold fits_Int. simpl. lia.
  - apply (proj2 (reorderChapters_no_conflict "course" abc)
             [Update.mk "C" 0; Update.mk "A" 1; Update.mk "B" 2]
             "course"%string).
    + unfold unique_chapter_ids. simpl.
      repeat constructor; simpl; intuition discriminate.
    + unfold unique_positions. simpl.
      repeat constructor; simpl; intuition discriminate.
    + simpl. repeat constructor; simpl; intuition discriminate.
    + simpl. repeat constructor; simpl; intuition discriminate.
    + repeat constructor; unfold fits_Int; simpl; lia.
    + intros u [<-|[<-|[<-|[]]]].
      * exists (chapter_at "C" "course" 2). simpl. auto 6.
      * exists (chapter_at "A" "course" 0). simpl. auto 6.
      * exists (chapter_at "B" "course" 1). simpl. auto 6.
    + intros ch [<-|[<-|[<-|[]]]] _.
      * exists (Update.mk "A" 1). simpl. auto 6.
      * exists (Update.mk "B" 2). simpl. auto 6.
      * exists (Update.mk "C" 0). simpl. auto 6.
Defined.

(** C10. The course identifier plays no part in a reordering.  Two calls
    that differ only in it have the same outcome and leave the same
    database.  Whatever course identifier is passed, when the store does not
    fail, every listed id names a chapter and every position fits the Int
    column, the call succeeds and every chapter named by an update has the
    position of the last such update afterwards, whichever course the
    chapter belongs to. *)
Theorem reorderChapters_ignores_courseId :
  forall faults courseId1 courseId2 updateData st,
    reorderChapters faults courseId1 updateData st
      = reorderChapters faults courseId2 updateData st
    /\ ((forall i, faults i = false) ->
        Forall (fun u => chapter_exists (Update.id u) st = true
                         /\ fits_Int (Update.position u)) updateData ->
        exists st',
          reorderChapters faults courseId1 updateData st = (Ok tt, st')
          /\ forall before u after ch,
               updateData = before ++ u :: after ->
               Forall (fun v => ~ names (Update.id u) v) after ->
               In ch (chapters st) ->
               Chapter.id ch = Update.id u ->
               In (Chapter.with_position ch (Update.position u))
                  (chapters st')).
Proof.
  intros faults courseId1 courseId2 updateData st. split; [reflexivity|].
  intros Hf Hall. eexists. split.
  { apply reorderChapters_succeeds; [exact Hf|].
    eapply Forall_impl; [|exact Hall]. simpl. tauto. }
  intros before u after ch Hsplit Hafter Hin Hid. simpl.
  apply in_map_iff. exists ch. split; [|exact Hin].
  unfold reposition. f_equal. subst updateData.
  apply final_position_last.
  - unfold names. now symmetry.
  - now rewrite Hid.
Qed.

(** One call, made for "course", moves a chapter of that course and a chapter
    of another course. *)
Lemma reorderChapters_ignores_courseId_witness :
  exists st',
    reorderChapters no_faults "course"
      [Update.mk "A" 5; Update.mk "D" 7] two_courses = (Ok tt, st')
    /\ In (chapter_at "A" "course" 5) (chapters st')
    /\ In (chapter_at "D" "another course" 7) (chapters st').
Proof.
  destruct (proj2 (reorderChapters_ignores_courseId no_faults "course"
                     "another course" [Update.mk "A" 5; Update.mk "D" 7]
                     two_courses))
    as (st' & Hrun & Hmoved).
  - reflexivity.
  - repeat constructor; unfold fits_Int; simpl; lia.
  - exists st'. split; [exact Hrun|]. split.
    + apply (Hmoved [] (Update.mk "A" 5) [Update.mk "D" 7]
               (chapter_at "A" "course" 0)).
      * reflexivity.
      * repeat constructor. unfold names. simpl. discriminate.
      * simpl. now left.
      * reflexivity.
    + apply (Hmoved [Update.mk "A" 5] (Update.mk "D" 7) []
               (chapter_at "D" "another course" 0)).
      * reflexivity.
      * constructor.
      * simpl. right. right. now left.
      * reflexivity.
Defined.

(** ** Progress records *)

Lemma has_key_iff (userId chapterId : string) (p : UserProgress.t) :
  has_key userId chapterId p = true <-> UserProgress.key p = (userId, chapterId).
Proof.
  unfold has_key, UserProgress.key.
  rewrite andb_true_iff, !String.eqb_eq. split.
  - intros [-> ->]. reflexivity.
  - intros H. inversion H. split; reflexivity.
Qed.

Lemma has_key_overwrite (u c u' c' : string) (flag : bool) (now : Z)
    (p : UserProgress.t) :
  has_key u c (overwrite u' c' flag now p) = has_key u c p.
Proof. unfold overwrite. now destruct (has_key u' c' p). Qed.

Lemma key_overwrite (u c : string) (flag : bool) (now : Z) (p : UserProgress.t) :
  UserProgress.key (overwrite u c flag now p) = UserProgress.key p.
Proof. unfold overwrite. now destruct (has_key u c p). Qed.

Lemma overwrite_other (u c : string) (flag : bool) (now : Z) (p : UserProgress.t) :
  has_key u c p = false -> overwrite u c flag now p = p.
Proof. unfold overwrite. now intros ->. Qed.

Lemma map_overwrite_others (u c : string) (flag : bool) (now : Z)
    (l : list UserProgress.t) :
  (forall p, In p l -> has_key u c p = false) ->
  map (overwrite u c flag now) l = l.
Proof.
  induction l as [|p l IH]; simpl; intros H; [reflexivity|].
  rewrite overwrite_other by (apply H; now left).
  rewrite IH; [reflexivity|]. intros q Hq. apply H. now right.
Qed.

Lemma find_map_overwrite (u c : string) (flag : bool) (now : Z)
    (l : list UserProgress.t) :
  find (has_key u c) (map (overwrite u c flag now) l)
  = option_map (overwrite u c flag now) (find (has_key u c) l).
Proof.
  induction l as [|p l IH]; simpl; [reflexivity|].
  rewrite has_key_overwrite. destruct (has_key u c p); [reflexivity | exact IH].
Qed.

Lemma find_app_last (u c : string) (l : list UserProgress.t) (row : UserProgress.t) :
  find (has_key u c) l = None ->
  has_key u c row = true ->
  find (has_key u c) (l ++ [row]) = Some row.
Proof.
  induction l as [|p l IH]; simpl; intros Hnone Hrow.
  - now rewrite Hrow.
  - destruct (has_key u c p); [discriminate | now apply IH].
Qed.

Lemma filter_none {A} (f : A -> bool) (l : list A) :
  (forall x, In x l -> f x = false) -> filter f l = [].
Proof.
  induction l as [|a l IH]; simpl; intros H; [reflexivity|].
  rewrite (H a) by now left. apply IH. intros x Hx. apply H. now right.
Qed.

(** Under the uniqueness constraint a key selects at most one row. *)
Lemma unique_key_selects (u c : string) (l : list UserProgress.t) :
  NoDup (map UserProgress.key l) ->
  forall row, In row l -> has_key u c row = true ->
  filter (has_key u c) l = [row].
Proof.
  induction l as [|p l IH]; simpl; intros Hnd row Hin Hrow; [contradiction|].
  inversion Hnd as [|? ? Hnotin Hnd']; subst.
  assert (Hrest : has_key u c p = true ->
                  forall x, In x l -> has_key u c x = false).
  { intros Hp x Hx. destruct (has_key u c x) eqn:E; [|reflexivity].
    exfalso. apply Hnotin. apply has_key_iff in Hp. apply has_key_iff in E.
    rewrite Hp, <- E. now apply in_map. }
  destruct Hin as [->|Hin].
  - rewrite Hrow. f_equal. apply filter_none. now apply Hrest.
  - destruct (has_key u c p) eqn:Hp.
    + rewrite (Hrest eq_refl row Hin) in Hrow. discriminate.
    + now apply IH.
Qed.

Lemma unique_key_at_most_one (u c : string) (l : list UserProgress.t) :
  NoDup (map UserProgress.key l) ->
  (List.length (filter (has_key u c) l) <= 1)%nat.
Proof.
  intros Hnd.
  destruct (filter (has_key u c) l) as [|row rest] eqn:F; [simpl; lia|].
  assert (Hrow : In row (filter (has_key u c) l)) by (rewrite F; now left).
  apply filter_In in Hrow. destruct Hrow as [Hin Hkey].
  rewrite (unique_key_selects u c l Hnd row Hin Hkey) in F.
  inversion F. simpl. lia.
Qed.

(** Overwriting the rows under one key leaves the rows under other keys. *)
Lemma filter_others_overwrite (u c : string) (flag : bool) (now : Z)
    (l : list UserProgress.t) :
  filter (fun p => negb (has_key u c p)) (map (overwrite u c flag now) l)
  = filter (fun p => negb (has_key u c p)) l.
Proof.
  induction l as [|p l IH]; simpl; [reflexivity|].
  rewrite has_key_overwrite.
  destruct (has_key u c p) eqn:K; simpl; [exact IH|].
  rewrite overwrite_other by exact K. now rewrite IH.
Qed.

Lemma served_iff (env : Env) :
  served env = true <-> has_chapterProgress env = true /\ store_up env = true.
Proof. unfold served. apply andb_true_iff. Qed.

(** The ways a call of [trackProgress] can go: the row under the key is
    overwritten, a row is inserted, or the call fails and the database is as
    before. *)
Lemma trackProgress_cases (env : Env) (userId chapterId : string) (flag : bool)
    (st : db) :
  (exists row,
      served env = true
      /\ find (has_key userId chapterId) (userProgress st) = Some row
      /\ trackProgress env userId chapterId flag st
         = (Ok (UserProgress.with_isCompleted row flag (now env)),
            with_userProgress st
              (map (overwrite userId chapterId flag (now env))
                   (userProgress st))))
  \/ (served env = true
      /\ find (has_key userId chapterId) (userProgress st) = None
      /\ (relationMode st = prismaMode \/ chapter_exists chapterId st = true)
      /\ trackProgress env userId chapterId flag st
         = (Ok (new_row env userId chapterId flag),
            with_userProgress st
              (userProgress st ++ [new_row env userId chapterId flag])))
  \/ (exists e,
         trackProgress env userId chapterId flag st = (Err e, st)
         /\ ((e = TypeError /\ has_chapterProgress env = false)
             \/ (e = StoreUnavailable
                 /\ has_chapterProgress env = true /\ store_up env = false)
             \/ (e = ForeignKeyConstraintFailed
                 /\ served env = true
                 /\ find (has_key userId chapterId) (userProgress st) = None
                 /\ relationMode st = foreignKeys
                 /\ chapter_exists chapterId st = false))).
Proof.
  unfold trackProgress, upsert, served.
  destruct (has_chapterProgress env) eqn:D;
    [|right; right; exists TypeError; split; [reflexivity|]; left; now split].
  destruct (store_up env) eqn:S;
    [|right; right; exists StoreUnavailable; split; [reflexivity|];
      right; left; repeat split].
  destruct (find (has_key userId chapterId) (userProgress st)) as [row|] eqn:F.
  - left. exists row. repeat split.
  - right.
    destruct (relationMode st) eqn:M, (chapter_exists chapterId st) eqn:C;
      try (left; split; [reflexivity|]; split; [reflexivity|];
           split; [tauto | reflexivity]).
    right. exists ForeignKeyConstraintFailed. split; [reflexivity|].
    right. right. repeat split.
Qed.

Lemma has_key_new_row (env : Env) (userId chapterId : string) (flag : bool) :
  has_key userId chapterId (new_row env userId chapterId flag) = true.
Proof. unfold has_key, new_row. simpl. now rewrite !String.eqb_refl. Qed.

Lemma trackProgress_unique (env : Env) (userId chapterId : string) (flag : bool)
    (st : db) :
  unique_progress st ->
  unique_progress (snd (trackProgress env userId chapterId flag st)).
Proof.
  unfold unique_progress. intros Hnd.
  destruct (trackProgress_cases env userId chapterId flag st)
    as [(row & _ & _ & E)|[(_ & Hnone & _ & E)|(e & E & _)]]; rewrite E; simpl.
  - rewrite map_map.
    rewrite (map_ext _ UserProgress.key) by (intros p; apply key_overwrite).
    exact Hnd.
  - rewrite map_app. apply NoDup_app; [exact Hnd | repeat constructor; intros [] |].
    simpl. intros k Hk [<-|[]].
    apply in_map_iff in Hk. destruct Hk as (p & Hp & Hin).
    change (UserProgress.key p = (userId, chapterId)) in Hp.
    apply (proj2 (has_key_iff userId chapterId p)) in Hp.
    rewrite (find_none _ _ Hnone p Hin) in Hp. discriminate.
  - exact Hnd.
Qed.

(** The row a successful call returns is in the table, under the given key
    and with the given flag. *)
Lemma trackProgress_ok_row (env : Env) (userId chapterId : string) (flag : bool)
    (st st' : db) (row : UserProgress.t) :
  trackProgress env userId chapterId flag st = (Ok row, st') ->
  In row (userProgress st')
  /\ UserProgress.key row = (userId, chapterId)
  /\ UserProgress.isCompleted row = flag.
Proof.
  intros H.
  destruct (trackProgress_cases env userId chapterId flag st)
    as [(old & _ & F & E)|[(_ & _ & _ & E)|(e & E & _)]];
    rewrite E in H; inversion H; subst; clear H; simpl.
  - apply find_some in F. destruct F as [Hin Hkey]. repeat split.
    + apply in_map_iff. exists old. split; [|exact Hin].
      unfold overwrite. now rewrite Hkey.
    + now apply has_key_iff.
  - repeat split. apply in_or_app. right. now left.
Qed.

(** After a successful call every row under the key has the given flag. *)
Lemma trackProgress_rows_under_key (env : Env) (userId chapterId : string)
    (flag : bool) (st st' : db) (row : UserProgress.t) :
  trackProgress env userId chapterId flag st = (Ok row, st') ->
  forall p, In p (userProgress st') -> has_key userId chapterId p = true ->
            UserProgress.isCompleted p = flag.
Proof.
  intros H p Hin Hkey.
  destruct (trackProgress_cases env userId chapterId flag st)
    as [(old & _ & _ & E)|[(_ & Hnone & _ & E)|(e & E & _)]];
    rewrite E in H; inversion H; subst; clear H; simpl in Hin.
  - apply in_map_iff in Hin. destruct Hin as (q & <- & _).
    rewrite has_key_overwrite in Hkey. unfold overwrite. now rewrite Hkey.
  - apply in_app_or in Hin. destruct Hin as [Hin|[<-|[]]]; [|reflexivity].
    rewrite (find_none _ _ Hnone p Hin) in Hkey. discriminate.
Qed.

(** A call that the client and the store serve succeeds when the datasource
    does not enforce the relation or the chapter exists. *)
Lemma trackProgress_succeeds (env : Env) (userId chapterId : string)
    (flag : bool) (st : db) :
  served env = true ->
  relationMode st = prismaMode \/ chapter_exists chapterId st = true ->
  exists row st', trackProgress env userId chapterId flag st = (Ok row, st').
Proof.
  intros Hs Hallowed.
  destruct (trackProgress_cases env userId chapterId flag st)
    as [(old & _ & _ & E)|[(_ & _ & _ & E)|(e & E & Hwhy)]];
    [now eauto | now eauto |].
  exfalso. apply served_iff in Hs. destruct Hs as [Hd Hup].
  destruct Hwhy as [(_ & H)|[(_ & _ & H)|(_ & _ & _ & M & C)]];
    [congruence | congruence |].
  destruct Hallowed; congruence.
Qed.






(** C5. Every operation keeps the progress table free of duplicate
    (user, chapter) pairs: from a database that satisfies the constraint, the
    database observable after [trackProgress], [calculateCourseProgress],
    [reorderChapters] or [createCourse] satisfies it too, whether the call
    succeeded or not. *)
Theorem operations_preserve_unique_progress :
  forall st,
    unique_progress st ->
    (forall env userId chapterId isCompleted,
        unique_progress (snd (trackProgress env userId chapterId isCompleted st)))
    /\ (forall userId courseId,
          unique_progress (snd (calculateCourseProgress userId courseId st)))
    /\ (forall faults courseId updateData,
          unique_progress (snd (reorderChapters faults courseId updateData st)))
    /\ (forall uuid userId data,
          unique_progress (snd (createCourse uuid userId data st))).
Proof.
  intros st Hu. repeat split.
  - intros. now apply trackProgress_unique.
  - intros. exact Hu.
  - intros faults courseId updateData.
    destruct (reorderChapters_outcome faults courseId updateData st) as [E|[e E]];
      rewrite E; exact Hu.
  - intros. exact Hu.
Qed.

Lemma operations_preserve_unique_progress_witness :
  unique_progress
    (snd (trackProgress (client_at 1000 "uuid1") "student" "chapter1" true
            paid_chapter)).
Proof.
  apply (proj1 (operations_preserve_unique_progress paid_chapter
                  (NoDup_nil _))).
Defined.

(** C7 as the specification words it fails.  A user without any purchase
    sets the completion of a chapter that is not free: with a client that has
    the member the call succeeds and the row is written; with the client of
    the README schema it throws a TypeError, not Unauthorized.  For a chapter
    id that names no chapter the call never fails with NotFound: it writes a
    dangling row where the datasource does not enforce the relation, fails
    with the store's foreign-key error where it does, and throws a TypeError
    with the client of the README schema. *)
Lemma trackProgress_without_purchase :
  purchases paid_chapter = []
  /\ map Chapter.isFree (chapters paid_chapter) = [false]
  /\ trackProgress (client_at 1000 "uuid1") "student" "chapter1" true
       paid_chapter
     = (Ok (UserProgress.mk "uuid1" "student" "chapter1" true 1000 1000),
        with_userProgress paid_chapter
          [UserProgress.mk "uuid1" "student" "chapter1" true 1000 1000])
  /\ trackProgress (readme_client 1000 "uuid1") "student" "chapter1" true
       paid_chapter
     = (Err TypeError, paid_chapter)
  /\ chapters empty_db = []
  /\ trackProgress (client_at 1000 "uuid1") "student" "ghost" true empty_db
     = (Ok (UserProgress.mk "uuid1" "student" "ghost" true 1000 1000),
        with_userProgress empty_db
          [UserProgress.mk "uuid1" "student" "ghost" true 1000 1000])
  /\ trackProgress (client_at 1000 "uuid1") "student" "ghost" true paid_chapter
     = (Err ForeignKeyConstraintFailed, paid_chapter)
  /\ trackProgress (readme_client 1000 "uuid1") "student" "ghost" true empty_db
     = (Err TypeError, empty_db).
Proof. repeat split. Qed.

Lemma chapter_exists_with_entitlements (chapterId : string) (st : db)
    (purchases' : list Purchase.t) (free : Chapter.t -> bool) :
  chapter_exists chapterId (with_entitlements st purchases' free)
  = chapter_exists chapterId st.
Proof.
  unfold chapter_exists, with_entitlements. simpl.
  induction (chapters st) as [|ch l IH]; simpl; [reflexivity|].
  now rewrite IH.
Qed.

(** C7, amended.  [trackProgress] makes no check of its own, neither that the
    chapter exists nor that the user is entitled, and has no NotFound or
    Unauthorized outcome.  (1) What it returns and the progress table it
    leaves are the same whatever the purchases and the free flags are.
    (2) Where the client has the member and the store serves the call, the
    call succeeds for every user whenever the chapter exists, and the row
    under the (user, chapter) key is then in the table with the given flag.
    (3) Every failure leaves the database unchanged and is one of: the
    TypeError of a client without the member, the store being unavailable,
    the store's foreign-key rejection of a row for a chapter that does not
    exist. *)
Theorem trackProgress_unchecked :
  forall env userId chapterId isCompleted st,
    (forall purchases' free,
        fst (trackProgress env userId chapterId isCompleted
               (with_entitlements st purchases' free))
        = fst (trackProgress env userId chapterId isCompleted st)
        /\ userProgress
             (snd (trackProgress env userId chapterId isCompleted
                     (with_entitlements st purchases' free)))
           = userProgress
               (snd (trackProgress env userId chapterId isCompleted st)))
    /\ (served env = true ->
        chapter_exists chapterId st = true ->
        exists row st',
          trackProgress env userId chapterId isCompleted st = (Ok row, st')
          /\ In row (userProgress st')
          /\ UserProgress.key row = (userId, chapterId)
          /\ UserProgress.isCompleted row = isCompleted)
    /\ (forall e st',
          trackProgress env userId chapterId isCompleted st = (Err e, st') ->
          st' = st
          /\ ((e = TypeError /\ has_chapterProgress env = false)
              \/ (e = StoreUnavailable /\ store_up env = false)
              \/ (e = ForeignKeyConstraintFailed
                  /\ relationMode st = foreignKeys
                  /\ chapter_exists chapterId st = false))).
Proof.
  intros env userId chapterId flag st. split; [|split].
  - intros purchases' free. unfold trackProgress, upsert.
    rewrite chapter_exists_with_entitlements. simpl.
    destruct (has_chapterProgress env); [|split; reflexivity].
    destruct (store_up env); [|split; reflexivity].
    destruct (find (has_key userId chapterId) (userProgress st));
      [split; reflexivity|].
    destruct (relationMode st), (chapter_exists chapterId st);
      split; reflexivity.
  - intros Hs Hex.
    destruct (trackProgress_succeeds env userId chapterId flag st Hs
                (or_intror Hex)) as (row & st' & E).
    exists row, st'. split; [exact E|].
    exact (trackProgress_ok_row _ _ _ _ _ _ _ E).
  - intros e st' H.
    destruct (trackProgress_cases env userId chapterId flag st)
      as [(old & _ & _ & E)|[(_ & _ & _ & E)|(e' & E & Hwhy)]];
      rewrite E in H; inversion H; subst. split; [reflexivity|].
    destruct Hwhy as [Hw|[(He & _ & Hup)|(He & _ & _ & M & C)]]; auto.
Qed.

Lemma trackProgress_unchecked_witness :
  exists row st',
    trackProgress (client_at 1000 "uuid1") "student" "chapter1" true
      paid_chapter = (Ok row, st')
    /\ In row (userProgress st')
    /\ UserProgress.key row = ("student"%string, "chapter1"%string)
    /\ UserProgress.isCompleted row = true.
Proof.
  apply (proj1 (proj2 (trackProgress_unchecked (client_at 1000 "uuid1")
                         "student" "chapter1" true paid_chapter)));
    reflexivity.
Defined.

(** C8. [trackProgress] touches nothing but the rows under the given
    (user, chapter) key: courses, chapters (with their positions and
    publication flags) and purchases are as before, and so is, row for row
    and in order, every progress record under another key.  Under the
    uniqueness constraint the rows under the given key are at most one. *)
Theorem trackProgress_frame :
  forall env userId chapterId isCompleted st,
    let st' := snd (trackProgress env userId chapterId isCompleted st) in
    relationMode st' = relationMode st
    /\ courses st' = courses st
    /\ chapters st' = chapters st
    /\ purchases st' = purchases st
    /\ filter (fun p => negb (has_key userId chapterId p)) (userProgress st')
       = filter (fun p => negb (has_key userId chapterId p)) (userProgress st)
    /\ (unique_progress st ->
        (List.length (filter (has_key userId chapterId) (userProgress st')) <= 1)%nat).
Proof.
  intros env userId chapterId flag st st'.
  assert (Hu : unique_progress st -> unique_progress st')
    by apply trackProgress_unique.
  subst st'.
  destruct (trackProgress_cases env userId chapterId flag st)
    as [(old & _ & _ & E)|[(_ & _ & _ & E)|(e & E & _)]];
    rewrite E in *; simpl in *; repeat split;
    try (intros H; apply unique_key_at_most_one; exact (Hu H)).
  - apply filter_others_overwrite.
  - rewrite filter_app. simpl. rewrite has_key_new_row. simpl.
    now rewrite app_nil_r.
Qed.

Lemma trackProgress_frame_witness :
  (List.length
     (filter (has_key "student" "chapter1")
        (userProgress
           (snd (trackProgress (client_at 1000 "uuid1") "student" "chapter1"
                   true paid_chapter))))
   <= 1)%nat.
Proof.
  apply (proj2 (proj2 (proj2 (proj2 (proj2
           (trackProgress_frame (client_at 1000 "uuid1") "student" "chapter1"
              true paid_chapter)))))).
  unfold unique_progress. simpl. constructor.
Defined.

(** ** Course progress *)

Lemma selected_iff (courseId : string) (ch : Chapter.t) :
  selected courseId ch = true <-> published_in courseId ch.
Proof.
  unfold selected, published_in. now rewrite andb_true_iff, String.eqb_eq.
Qed.

Lemma some_completed_iff (st : db) (userId : string) (ch : Chapter.t) :
  existsb UserProgress.isCompleted (included st userId ch) = true
  <-> completed_by st userId ch.
Proof.
  unfold included, completed_by. rewrite existsb_exists. split.
  - intros (p & Hin & Hflag). apply filter_In in Hin.
    destruct Hin as [Hin Hsel]. apply andb_true_iff in Hsel.
    destruct Hsel as [Hc Hu]. apply String.eqb_eq in Hc, Hu.
    exists p. auto.
  - intros (p & Hin & Hu & Hc & Hflag). exists p. split; [|exact Hflag].
    apply filter_In. split; [exact Hin|].
    apply andb_true_iff. now rewrite !String.eqb_eq.
Qed.

Lemma selected_and_completed_iff (st : db) (userId courseId : string)
    (ch : Chapter.t) :
  selected courseId ch
  && existsb UserProgress.isCompleted (included st userId ch) = true
  <-> published_in courseId ch /\ completed_by st userId ch.
Proof.
  now rewrite andb_true_iff, selected_iff, some_completed_iff.
Qed.

Lemma counts_filter {A} (P : A -> Prop) (f : A -> bool) (l : list A) (n : nat) :
  (forall x, f x = true <-> P x) ->
  counts P l n -> List.length (filter f l) = n.
Proof.
  intros Hf. induction 1 as [|x l n Hx _ IH|x l n Hx _ IH]; simpl.
  - reflexivity.
  - apply Hf in Hx. rewrite Hx. simpl. now rewrite IH.
  - destruct (f x) eqn:E; [|exact IH]. apply Hf in E. contradiction.
Qed.

(** Counting is total: the filter of a decidable property gives the count. *)
Lemma counts_of_filter {A} (P : A -> Prop) (f : A -> bool) (l : list A) :
  (forall x, f x = true <-> P x) ->
  counts P l (List.length (filter f l)).
Proof.
  intros Hf. induction l as [|x l IH]; simpl; [constructor|].
  destruct (f x) eqn:E.
  - simpl. apply counts_hit; [now apply Hf | exact IH].
  - apply counts_miss; [|exact IH]. intros Hx. apply Hf in Hx. congruence.
Qed.

Lemma counts_le {A} (P Q : A -> Prop) (l : list A) :
  (forall x, Q x -> P x) ->
  forall k, counts Q l k -> forall n, counts P l n -> (k <= n)%nat.
Proof.
  intros HQP k Hk. induction Hk as [|x l k Hx _ IH|x l k Hx _ IH];
    intros n Hn; inversion Hn; subst; try lia.
  - specialize (IH _ H3). lia.
  - exfalso. auto.
  - specialize (IH _ H3). lia.
  - auto.
Qed.

Lemma filter_filter {A} (f g : A -> bool) (l : list A) :
  filter g (filter f l) = filter (fun x => f x && g x) l.
Proof.
  induction l as [|x l IH]; simpl; [reflexivity|].
  destruct (f x); simpl; [destruct (g x)|]; now rewrite IH.
Qed.

(** The two lengths that [calculateCourseProgress] divides. *)
Lemma calculateCourseProgress_lengths (userId courseId : string) (st : db) :
  calculateCourseProgress userId courseId st
  = (Ok (percentage
           (List.length
              (filter (fun ch => selected courseId ch
                                 && existsb UserProgress.isCompleted
                                            (included st userId ch))
                      (chapters st)))
           (List.length (filter (selected courseId) (chapters st)))),
     st).
Proof.
  unfold calculateCourseProgress, findMany, percentage.
  rewrite filter_map_swap, !length_map. simpl.
  rewrite filter_filter. reflexivity.
Qed.

(** For courses of up to a hundred published chapters the binary64 result is
    within one unit in the last place of the rational 100 k / N. *)
Lemma within_ulp_small_courses (k N : nat) :
  (1 <= N <= 100)%nat -> (k <= N)%nat -> within_ulp k N = true.
Proof.
  intros HN Hk.
  assert (Hall : forallb (fun n => forallb (fun j => within_ulp j n)
                                           (seq 0 (S n)))
                         (seq 1 100) = true) by (vm_compute; reflexivity).
  rewrite forallb_forall in Hall.
  specialize (Hall N). rewrite forallb_forall in Hall.
  apply Hall; apply in_seq; lia.
Qed.

Example calculateCourseProgress_scenario :
  calculateCourseProgress "U" "course" scenario = (Ok 50%float, scenario).
Proof. reflexivity. Qed.

(** C1. For every user and course with N >= 1 published chapters of which the
    user has completed exactly k (a record of the user for the chapter with a
    true flag; unpublished chapters and false flags do not count),
    [calculateCourseProgress] returns the number (k / N) * 100 and leaves the
    database alone; k is at most N; and for N up to 100 that binary64 number
    is the rational 100 k / N up to one unit in the last place. *)
Theorem calculateCourseProgress_percentage :
  forall st userId courseId N k,
    counts (published_in courseId) (chapters st) N ->
    counts (fun ch => published_in courseId ch /\ completed_by st userId ch)
           (chapters st) k ->
    (1 <= N)%nat ->
    calculateCourseProgress userId courseId st = (Ok (percentage k N), st)
    /\ (k <= N)%nat
    /\ ((N <= 100)%nat ->
        exists q, Q_of_float (percentage k N) = Some q
                  /\ (Qabs (q - exact_percentage k N) <= ulp_100)%Q).
Proof.
  intros st userId courseId N k HN Hk Hpos.
  assert (Hle : (k <= N)%nat).
  { eapply counts_le; [|exact Hk|exact HN]. now intros x [Hx _]. }
  split; [|split; [exact Hle|]].
  - rewrite calculateCourseProgress_lengths.
    rewrite (counts_filter _ (selected courseId) _ _ (selected_iff courseId) HN).
    rewrite (counts_filter _
               (fun ch => selected courseId ch
                          && existsb UserProgress.isCompleted
                                     (included st userId ch))
               _ _ (selected_and_completed_iff st userId courseId) Hk).
    reflexivity.
  - intros Hsmall.
    pose proof (within_ulp_small_courses k N (conj Hpos Hsmall) Hle) as H.
    unfold within_ulp in H.
    destruct (Q_of_float (percentage k N)) as [q|]; [|discriminate].
    exists q. split; [reflexivity|]. now apply Qle_bool_iff.
Qed.

Lemma calculateCourseProgress_percentage_witness :
  calculateCourseProgress "U" "course" scenario = (Ok (percentage 1 2), scenario)
  /\ (1 <= 2)%nat
  /\ ((2 <= 100)%nat ->
      exists q, Q_of_float (percentage 1 2) = Some q
                /\ (Qabs (q - exact_percentage 1 2) <= ulp_100)%Q).
Proof.
  apply (calculateCourseProgress_percentage scenario "U" "course" 2 1).
  - apply (counts_of_filter _ (selected "course") (chapters scenario)
             (selected_iff "course")).
  - apply (counts_of_filter _
             (fun ch => selected "course" ch
                        && existsb UserProgress.isCompleted
                                   (included scenario "U" ch))
             (chapters scenario)).
    apply selected_and_completed_iff.
  - lia.
Defined.

(** A course without a published chapter: the quotient is 0 / 0. *)
Lemma calculateCourseProgress_no_published (userId courseId : string) (st : db) :
  counts (published_in courseId) (chapters st) 0 ->
  calculateCourseProgress userId courseId st = (Ok nan, st).
Proof.
  intros H0. rewrite calculateCourseProgress_lengths.
  pose proof (counts_filter _ (selected courseId) _ _ (selected_iff courseId) H0)
    as Hsel.
  rewrite Hsel.
  assert (Hk : List.length
                 (filter (fun ch => selected courseId ch
                                    && existsb UserProgress.isCompleted
                                               (included st userId ch))
                         (chapters st)) = 0%nat).
  { rewrite <- filter_filter.
    destruct (filter (selected courseId) (chapters st)); [reflexivity|].
    discriminate Hsel. }
  rewrite Hk. reflexivity.
Qed.

(** C2 fails on the code.  A course as [createCourse] leaves it has no
    published chapter (the schema default), and [calculateCourseProgress] on
    it divides 0 by 0: the result is NaN, not a percentage and not a defined
    sentinel. *)
Theorem calculateCourseProgress_nan :
  let st := snd (createCourse uuids "teacher" two_chapter_course empty_db) in
  map Chapter.isPublished (chapters st) = [false; false]
  /\ exists x,
       calculateCourseProgress "student" "course" st = (Ok x, st)
       /\ PrimFloat.is_nan x = true.
Proof.
  split; [reflexivity|]. exists nan. split; reflexivity.
Qed.

(** ** Course creation *)

Lemma map_map_from {A B C} (h : B -> C) (f : A -> nat -> B) (l : list A) :
  forall i, map h (map_from f i l) = map_from (fun x j => h (f x j)) i l.
Proof. induction l as [|x l IH]; simpl; intros i; [|rewrite IH]; reflexivity. Qed.

Lemma map_from_map_from {A B C} (f : B -> nat -> C) (g : A -> nat -> B)
    (l : list A) :
  forall i, map_from f i (map_from g i l) = map_from (fun x j => f (g x j) j) i l.
Proof. induction l as [|x l IH]; simpl; intros i; [|rewrite IH]; reflexivity. Qed.

Lemma map_from_index {A B} (h : nat -> B) (l : list A) :
  forall i, map_from (fun _ j => h j) i l = map h (seq i (List.length l)).
Proof. induction l as [|x l IH]; simpl; intros i; [|rewrite IH]; reflexivity. Qed.

Lemma map_from_element {A B} (h : A -> B) (l : list A) :
  forall i, map_from (fun x _ => h x) i l = map h l.
Proof. induction l as [|x l IH]; simpl; intros i; [|rewrite IH]; reflexivity. Qed.

Lemma Forall_map_from {A B} (P : B -> Prop) (f : A -> nat -> B) (l : list A) :
  (forall x j, P (f x j)) -> forall i, Forall P (map_from f i l).
Proof.
  intros Hf. induction l as [|x l IH]; simpl; intros i; constructor;
    [apply Hf | apply IH].
Qed.

Lemma filter_all {A} (f : A -> bool) (l : list A) :
  Forall (fun x => f x = true) l -> filter f l = l.
Proof.
  induction 1 as [|x l Hx _ IH]; simpl; [reflexivity|]. now rewrite Hx, IH.
Qed.

Lemma createCourse_rows (uuid : nat -> string) (userId : string)
    (data : CreateCourseData) (st : db) :
  let course :=
    Course.mk (uuid 0%nat) userId (data_title data) (data_description data)
              (data_imageUrl data) (data_price data) false None in
  createCourse uuid userId data st
  = (Ok course,
     mkdb (relationMode st) (courses st ++ [course])
          (chapters st ++ created_chapters uuid data)
          (userProgress st) (purchases st)).
Proof.
  unfold createCourse, course_create, created_chapters, mapi. simpl.
  now rewrite map_from_map_from.
Qed.

(** C9. [createCourse] gives each supplied chapter the position of its index:
    the call succeeds, appends one chapter row per input chapter in input
    order, all of the new course, with positions 0, 1, ..., n-1, which are
    pairwise distinct; when the drawn course id is fresh these rows are all
    the chapters of the course. *)
Theorem createCourse_positions :
  forall uuid userId data st,
    exists course created,
      createCourse uuid userId data st
      = (Ok course,
         mkdb (relationMode st) (courses st ++ [course])
              (chapters st ++ created) (userProgress st) (purchases st))
      /\ map Chapter.title created = map in_title (data_chapters data)
      /\ map Chapter.position created
         = map Z.of_nat (seq 0 (List.length (data_chapters data)))
      /\ Forall (fun ch => Chapter.courseId ch = Course.id course) created
      /\ NoDup (map Chapter.position created)
      /\ ((forall ch, In ch (chapters st) ->
                      Chapter.courseId ch <> Course.id course) ->
          filter (fun ch => String.eqb (Chapter.courseId ch) (Course.id course))
                 (chapters st ++ created)
          = created).
Proof.
  intros uuid userId data st.
  eexists. exists (created_chapters uuid data).
  split; [apply createCourse_rows|].
  assert (Hpos : map Chapter.position (created_chapters uuid data)
                 = map Z.of_nat (seq 0 (List.length (data_chapters data)))).
  { unfold created_chapters, mapi. rewrite map_map_from. simpl.
    apply map_from_index. }
  assert (Hcourse : Forall (fun ch => Chapter.courseId ch = uuid 0%nat)
                           (created_chapters uuid data)).
  { unfold created_chapters, mapi. apply Forall_map_from. reflexivity. }
  split; [|split; [exact Hpos|split; [exact Hcourse|split]]].
  - unfold created_chapters, mapi. rewrite map_map_from. simpl.
    apply map_from_element.
  - rewrite Hpos. apply Injective_map_NoDup; [|apply seq_NoDup].
    intros a b. apply Nat2Z.inj.
  - simpl. intros Hfresh. rewrite filter_app.
    rewrite filter_none, filter_all; [reflexivity| |].
    + eapply Forall_impl; [|exact Hcourse]. simpl. intros ch ->.
      apply String.eqb_refl.
    + intros ch Hin. apply String.eqb_neq. now apply Hfresh.
Qed.

Lemma createCourse_positions_witness :
  exists course created,
    createCourse uuids "teacher" two_chapter_course empty_db
    = (Ok course,
       mkdb prismaMode [course] created [] [])
    /\ map Chapter.position created = [0%Z; 1%Z]
    /\ filter (fun ch => String.eqb (Chapter.courseId ch) (Course.id course))
              created
       = created.
Proof.
  destruct (createCourse_positions uuids "teacher" two_chapter_course empty_db)
    as (course & created & Hrun & _ & Hpos & _ & _ & Hall).
  exists course, created. split; [exact Hrun|]. split; [exact Hpos|].
  apply Hall. intros ch [].
Defined.

(** * Further properties of the code *)

(** ** Chapter reordering: what it touches, when it fails, how calls compose *)





Lemma forallb_same {A} (f g : A -> bool) (l : list A) :
  (forall x, f x = g x) -> forallb f l = forallb g l.
Proof. intros H. induction l as [|x l IH]; simpl; [|rewrite H, IH]; reflexivity. Qed.


(** Without forced failures a run stops exactly at the first update whose id
    names no chapter. *)
Lemma run_statements_no_faults (updateData : list Update.t) :
  forall (i : nat) (working : db),
    fst (run_statements no_faults i
           (map (fun c => chapter_update (Update.id c) (Update.position c))
                updateData)
           working)
    = if forallb (fun u => chapter_exists (Update.id u) working) updateData
      then None else Some RecordNotFound.
Proof.
  induction updateData as [|u rest IH]; simpl; intros i w; [reflexivity|].
  unfold chapter_update at 1. fold (chapter_exists (Update.id u) w).
  destruct (chapter_exists (Update.id u) w) eqn:E; simpl; [|reflexivity].
  match goal with |- context [run_statements _ _ _ ?w1] => set (W := w1) end.
  rewrite IH.
  rewrite (forallb_same (fun v => chapter_exists (Update.id v) W)
             (fun v => chapter_exists (Update.id v) w) rest); [reflexivity|].
  intros v. apply chapter_exists_with_chapters_map.
  intros ch. now destruct (String.eqb _ _).
Qed.

Lemma reorderChapters_no_faults (courseId : string) (updateData : list Update.t)
    (st : db) :
  reorderChapters no_faults courseId updateData st
  = if forallb (fun u => chapter_exists (Update.id u) st) updateData
    then (Ok tt, with_chapters st (map (reposition updateData) (chapters st)))
    else (Err RecordNotFound, st).
Proof.
  pose proof (run_statements_no_faults updateData 0 st) as Hrun.
  destruct (forallb _ updateData) eqn:F.
  - apply reorderChapters_succeeds; [reflexivity|].
    apply Forall_forall. now apply forallb_forall.
  - unfold reorderChapters, transaction.
    destruct (run_statements no_faults 0 _ st) as [[e|] w]; simpl in Hrun;
      [now inversion Hrun | discriminate].
Qed.

(** X2. When the store itself does not fail, a batch is refused exactly
    because of an unknown chapter id: one update that names no chapter makes
    the whole call fail with the store's record-not-found error and nothing
    is reordered, however many valid updates surround it. *)
Theorem reorderChapters_unknown_id_rejects_batch :
  forall courseId updateData st u,
    In u updateData ->
    chapter_exists (Update.id u) st = false ->
    reorderChapters no_faults courseId updateData st = (Err RecordNotFound, st).
Proof.
  intros courseId updateData st u Hin Hu.
  rewrite reorderChapters_no_faults.
  destruct (forallb _ updateData) eqn:F; [|reflexivity].
  rewrite forallb_forall in F. rewrite (F u Hin) in Hu. discriminate.
Qed.

Lemma reorderChapters_unknown_id_rejects_batch_witness :
  reorderChapters no_faults "course"
    [Update.mk "A" 2; Update.mk "Z" 0; Update.mk "C" 0] abc
  = (Err RecordNotFound, abc).
Proof.
  apply (reorderChapters_unknown_id_rejects_batch "course"
           [Update.mk "A" 2; Update.mk "Z" 0; Update.mk "C" 0] abc
           (Update.mk "Z" 0)).
  - simpl. right. now left.
  - reflexivity.
Defined.




Lemma final_position_swap (a b ch : Chapter.t) :
  final_position (swap a b) ch
  = if String.eqb (Chapter.id ch) (Chapter.id b) then Chapter.position a
    else if String.eqb (Chapter.id ch) (Chapter.id a) then Chapter.position b
         else Chapter.position ch.
Proof. reflexivity. Qed.

(** X4. Exchanging the positions of two chapters of the same course, which is
    what moving a chapter by one place asks for, succeeds and keeps positions
    pairwise distinct within every course; afterwards each of the two
    chapters has the other's former position. *)
Theorem reorderChapters_swap_keeps_unique_positions :
  forall courseId st a b,
    unique_chapter_ids st ->
    unique_positions st ->
    In a (chapters st) ->
    In b (chapters st) ->
    Chapter.courseId a = Chapter.courseId b ->
    exists st',
      reorderChapters no_faults courseId (swap a b) st = (Ok tt, st')
      /\ unique_positions st'
      /\ In (Chapter.with_position a (Chapter.position b)) (chapters st')
      /\ In (Chapter.with_position b (Chapter.position a)) (chapters st').
Proof.
  intros courseId st a b Hids Hpos Ha Hb Hcourse.
  pose proof (NoDup_map_injective Chapter.id (chapters st) Hids) as Hid_inj.
  pose proof (NoDup_map_injective course_position (chapters st) Hpos)
    as Hpos_inj.
  eexists. split.
  { apply reorderChapters_succeeds; [reflexivity|].
    repeat constructor; simpl; now apply chapter_exists_of_in. }
  simpl. split; [|split].
  - unfold unique_positions. simpl. rewrite map_map.
    apply Injective_map_NoDup_in; [|exact (NoDup_map_inv _ _ Hids)].
    set (sigma := fun x : Chapter.t =>
                    if String.eqb (Chapter.id x) (Chapter.id b) then a
                    else if String.eqb (Chapter.id x) (Chapter.id a) then b
                         else x).
    assert (Hsigma : forall x, In x (chapters st) ->
               course_position (reposition (swap a b) x)
               = course_position (sigma x) /\ In (sigma x) (chapters st)).
    { intros x Hx. unfold course_position, reposition, sigma. simpl.
      rewrite final_position_swap.
      destruct (String.eqb_spec (Chapter.id x) (Chapter.id b)) as [Eb|Nb].
      - rewrite (Hid_inj x b Hx Hb Eb). split; [now rewrite Hcourse | exact Ha].
      - destruct (String.eqb_spec (Chapter.id x) (Chapter.id a)) as [Ea|Na].
        + rewrite (Hid_inj x a Hx Ha Ea). split; [now rewrite Hcourse | exact Hb].
        + split; [reflexivity | exact Hx]. }
    intros x y Hx Hy Hxy.
    destruct (Hsigma x Hx) as [Ex Hsx]. destruct (Hsigma y Hy) as [Ey Hsy].
    rewrite Ex, Ey in Hxy.
    pose proof (Hpos_inj _ _ Hsx Hsy Hxy) as Hs. unfold sigma in Hs.
    destruct (String.eqb_spec (Chapter.id x) (Chapter.id b)) as [Exb|Nxb];
      destruct (String.eqb_spec (Chapter.id y) (Chapter.id b)) as [Eyb|Nyb].
    + apply Hid_inj; congruence.
    + destruct (String.eqb_spec (Chapter.id y) (Chapter.id a)) as [Eya|Nya];
        subst; congruence.
    + destruct (String.eqb_spec (Chapter.id x) (Chapter.id a)) as [Exa|Nxa];
        subst; congruence.
    + destruct (String.eqb_spec (Chapter.id x) (Chapter.id a)) as [Exa|Nxa];
        destruct (String.eqb_spec (Chapter.id y) (Chapter.id a)) as [Eya|Nya].
      * apply Hid_inj; congruence.
      * subst; congruence.
      * subst; congruence.
      * exact Hs.
  - apply in_map_iff. exists a. split; [|exact Ha].
    unfold reposition. rewrite final_position_swap, String.eqb_refl.
    destruct (String.eqb_spec (Chapter.id a) (Chapter.id b)) as [E|_];
      [|reflexivity].
    now rewrite (Hid_inj a b Ha Hb E).
  - apply in_map_iff. exists b. split; [|exact Hb].
    unfold reposition. now rewrite final_position_swap, String.eqb_refl.
Qed.

Lemma reorderChapters_swap_keeps_unique_positions_witness :
  exists st',
    reorderChapters no_faults "course"
      (swap (chapter_at "A" "course" 0) (chapter_at "C" "course" 2)) abc
    = (Ok tt, st')
    /\ unique_positions st'
    /\ In (Chapter.with_position (chapter_at "A" "course" 0) 2) (chapters st')
    /\ In (Chapter.with_position (chapter_at "C" "course" 2) 0) (chapters st').
Proof.
  apply (reorderChapters_swap_keeps_unique_positions "course" abc
           (chapter_at "A" "course" 0) (chapter_at "C" "course" 2)).
  - unfold unique_chapter_ids. simpl.
    repeat constructor; simpl; intuition discriminate.
  - unfold unique_positions. simpl.
    repeat constructor; simpl; intuition discriminate.
  - simpl. now left.
  - simpl. right. right. now left.
  - reflexivity.
Defined.

(** ** Progress records: overwriting, isolation between users *)

Lemma overwrite_overwrite (u c : string) (flag1 flag2 : bool) (now1 now2 : Z)
    (p : UserProgress.t) :
  overwrite u c flag2 now2 (overwrite u c flag1 now1 p)
  = overwrite u c flag2 now2 p.
Proof.
  unfold overwrite at 1. rewrite has_key_overwrite. unfold overwrite.
  destruct (has_key u c p); reflexivity.
Qed.

(** The database that a call of [trackProgress] leaves. *)
Lemma trackProgress_store (env : Env) (userId chapterId : string) (flag : bool)
    (st : db) :
  snd (trackProgress env userId chapterId flag st)
  = if served env then
      match find (has_key userId chapterId) (userProgress st) with
      | Some _ =>
          with_userProgress st
            (map (overwrite userId chapterId flag (now env)) (userProgress st))
      | None =>
          match relationMode st, chapter_exists chapterId st with
          | foreignKeys, false => st
          | _, _ =>
              with_userProgress st
                (userProgress st ++ [new_row env userId chapterId flag])
          end
      end
    else st.
Proof.
  unfold trackProgress, upsert, served.
  destruct (has_chapterProgress env); [|reflexivity].
  destruct (store_up env); [|reflexivity]. simpl.
  destruct (find _ _); [reflexivity|].
  destruct (relationMode st), (chapter_exists chapterId st); reflexivity.
Qed.

Lemma trackProgress_keeps_tables (env : Env) (userId chapterId : string)
    (flag : bool) (st : db) :
  relationMode (snd (trackProgress env userId chapterId flag st))
  = relationMode st
  /\ courses (snd (trackProgress env userId chapterId flag st)) = courses st
  /\ chapters (snd (trackProgress env userId chapterId flag st)) = chapters st
  /\ purchases (snd (trackProgress env userId chapterId flag st))
     = purchases st.
Proof.
  rewrite trackProgress_store.
  destruct (served env),
           (find (has_key userId chapterId) (userProgress st)),
           (chapter_exists chapterId st);
    destruct (relationMode st) eqn:M; simpl; auto.
Qed.

(** X5. No history is kept.  A call followed by a second call for the same
    user and chapter, which the client and the store serve, leaves the
    database that the second call alone would have left: the other tables
    are equal and the progress tables agree row by row on user, chapter,
    flag and [updatedAt].  (The id and [createdAt] of the row are those of
    the call that created it.) *)
Theorem trackProgress_last_write_wins :
  forall env1 env2 userId chapterId flag1 flag2 st,
    served env2 = true ->
    let both :=
      snd (trackProgress env2 userId chapterId flag2
             (snd (trackProgress env1 userId chapterId flag1 st))) in
    let alone := snd (trackProgress env2 userId chapterId flag2 st) in
    relationMode both = relationMode alone
    /\ courses both = courses alone
    /\ chapters both = chapters alone
    /\ purchases both = purchases alone
    /\ map content (userProgress both) = map content (userProgress alone).
Proof.
  intros env1 env2 userId chapterId flag1 flag2 st Hs2 both alone.
  subst both alone.
  destruct (trackProgress_keeps_tables env2 userId chapterId flag2
              (snd (trackProgress env1 userId chapterId flag1 st)))
    as (M2 & C2 & Ch2 & P2).
  destruct (trackProgress_keeps_tables env1 userId chapterId flag1 st)
    as (M1 & C1 & Ch1 & P1).
  destruct (trackProgress_keeps_tables env2 userId chapterId flag2 st)
    as (M & C & Ch & P).
  split; [congruence|]. split; [congruence|]. split; [congruence|].
  split; [congruence|].
  rewrite (trackProgress_store env2 userId chapterId flag2 st).
  rewrite (trackProgress_store env2 userId chapterId flag2
             (snd (trackProgress env1 userId chapterId flag1 st))).
  rewrite Hs2.
  assert (Hex : chapter_exists chapterId
                  (snd (trackProgress env1 userId chapterId flag1 st))
                = chapter_exists chapterId st).
  { unfold chapter_exists. now rewrite Ch1. }
  rewrite M1, Hex.
  rewrite (trackProgress_store env1 userId chapterId flag1 st).
  destruct (served env1); [|reflexivity].
  destruct (find (has_key userId chapterId) (userProgress st)) as [row|] eqn:F.
  - simpl. rewrite find_map_overwrite, F. simpl. rewrite !map_map.
    apply map_ext. intros p. now rewrite overwrite_overwrite.
  - assert (Hins : map content
                     (map (overwrite userId chapterId flag2 (now env2))
                          (userProgress st
                           ++ [new_row env1 userId chapterId flag1]))
                   = map content
                       (userProgress st
                        ++ [new_row env2 userId chapterId flag2])).
    { rewrite !map_app. f_equal.
      - now rewrite map_overwrite_others by (apply find_none; exact F).
      - simpl. unfold overwrite. now rewrite has_key_new_row. }
    destruct (relationMode st) eqn:Mode, (chapter_exists chapterId st) eqn:Ex;
      simpl;
      try (rewrite (find_app_last _ _ _ _ F
                      (has_key_new_row env1 userId chapterId flag1));
           simpl; exact Hins).
    now rewrite F.
Qed.

Lemma trackProgress_last_write_wins_witness :
  map content
    (userProgress
       (snd (trackProgress (client_at 2000 "uuid2") "student" "chapter1" false
               (snd (trackProgress (client_at 1000 "uuid1") "student"
                       "chapter1" true paid_chapter)))))
  = map content
      (userProgress
         (snd (trackProgress (client_at 2000 "uuid2") "student" "chapter1"
                 false paid_chapter))).
Proof.
  apply (proj2 (proj2 (proj2 (proj2
           (trackProgress_last_write_wins (client_at 1000 "uuid1")
              (client_at 2000 "uuid2") "student" "chapter1" true false
              paid_chapter eq_refl))))).
Defined.

(** X6. After a successful call the chapter counts as completed by the user
    exactly when the flag given was true: setting the flag to false takes a
    completion back. *)
Theorem trackProgress_sets_completion :
  forall env userId chapterId flag st row st' ch,
    trackProgress env userId chapterId flag st = (Ok row, st') ->
    Chapter.id ch = chapterId ->
    (completed_by st' userId ch <-> flag = true).
Proof.
  intros env userId chapterId flag st row st' ch H Hid. split.
  - intros (p & Hin & Hu & Hc & Hflag).
    rewrite <- Hflag. symmetry.
    apply (trackProgress_rows_under_key _ _ _ _ _ _ _ H p Hin).
    apply has_key_iff. unfold UserProgress.key. now rewrite Hu, Hc, Hid.
  - intros ->.
    destruct (trackProgress_ok_row _ _ _ _ _ _ _ H) as (Hin & Hkey & Hflag).
    inversion Hkey. exists row. rewrite Hid. auto.
Qed.

Lemma trackProgress_sets_completion_witness :
  completed_by
    (with_userProgress paid_chapter
       [UserProgress.mk "uuid1" "student" "chapter1" false 1000 1000])
    "student" (chapter_at "chapter1" "course" 0)
  <-> false = true.
Proof.
  apply (trackProgress_sets_completion (client_at 1000 "uuid1") "student"
           "chapter1" false paid_chapter
           (UserProgress.mk "uuid1" "student" "chapter1" false 1000 1000)
           _ (chapter_at "chapter1" "course" 0)); reflexivity.
Defined.

Lemma included_other_user (env : Env) (userId chapterId other : string)
    (flag : bool) (st : db) (ch : Chapter.t) :
  other <> userId ->
  included (snd (trackProgress env userId chapterId flag st)) other ch
  = included st other ch.
Proof.
  intros Hother. rewrite trackProgress_store. unfold included.
  destruct (served env); [|reflexivity].
  assert (Hnot : forall p,
             String.eqb (UserProgress.chapterId p) (Chapter.id ch)
             && String.eqb (UserProgress.userId p) other = true ->
             has_key userId chapterId p = false).
  { intros p Hp. apply andb_true_iff in Hp. destruct Hp as [_ Hu].
    apply String.eqb_eq in Hu. unfold has_key.
    destruct (String.eqb_spec (UserProgress.userId p) userId); [|reflexivity].
    congruence. }
  destruct (find (has_key userId chapterId) (userProgress st)).
  - simpl. induction (userProgress st) as [|p l IH]; [reflexivity|].
    cbn [map filter]. rewrite IH.
    destruct (has_key userId chapterId p) eqn:K.
    + unfold overwrite. rewrite K. cbn.
      destruct (String.eqb (UserProgress.chapterId p) (Chapter.id ch)
                && String.eqb (UserProgress.userId p) other) eqn:G;
        [|reflexivity].
      rewrite (Hnot p G) in K. discriminate.
    + rewrite overwrite_other by exact K. reflexivity.
  - assert (Hnew : filter
                     (fun p => String.eqb (UserProgress.chapterId p) (Chapter.id ch)
                               && String.eqb (UserProgress.userId p) other)
                     (userProgress st ++ [new_row env userId chapterId flag])
                   = filter
                       (fun p => String.eqb (UserProgress.chapterId p) (Chapter.id ch)
                                 && String.eqb (UserProgress.userId p) other)
                       (userProgress st)).
    { rewrite filter_app. simpl.
      destruct (String.eqb_spec userId other) as [E|_];
        [now subst|].
      now rewrite andb_false_r, app_nil_r. }
    destruct (relationMode st), (chapter_exists chapterId st); simpl;
      try exact Hnew; reflexivity.
Qed.

(** X7. What one user records never changes the progress figure of another
    user, in any course. *)
Theorem trackProgress_other_user_progress :
  forall env userId chapterId flag other courseId st,
    other <> userId ->
    fst (calculateCourseProgress other courseId
           (snd (trackProgress env userId chapterId flag st)))
    = fst (calculateCourseProgress other courseId st).
Proof.
  intros env userId chapterId flag other courseId st Hother.
  rewrite !calculateCourseProgress_lengths. cbn [fst].
  destruct (trackProgress_keeps_tables env userId chapterId flag st)
    as (_ & _ & Hch & _).
  rewrite Hch. do 3 f_equal.
  apply filter_ext. intros ch. now rewrite included_other_user.
Qed.

Lemma trackProgress_other_user_progress_witness :
  fst (calculateCourseProgress "U" "course"
         (snd (trackProgress (client_at 1000 "uuid1") "V" "chapter2" true
                 scenario)))
  = fst (calculateCourseProgress "U" "course" scenario).
Proof.
  apply (trackProgress_other_user_progress (client_at 1000 "uuid1") "V"
           "chapter2" true "U" "course" scenario).
  discriminate.
Defined.

(** X8. The order of the chapters plays no part in the progress figure: no
    reordering, successful or not, changes what [calculateCourseProgress]
    returns for any user and course. *)
Theorem reorderChapters_keeps_progress :
  forall faults courseId updateData userId course st,
    fst (calculateCourseProgress userId course
           (snd (reorderChapters faults courseId updateData st)))
    = fst (calculateCourseProgress userId course st).
Proof.
  intros faults courseId updateData userId course st.
  destruct (reorderChapters_outcome faults courseId updateData st) as [E|[e E]];
    rewrite E; cbn [snd]; [|reflexivity].
  rewrite !calculateCourseProgress_lengths. cbn [fst]. simpl chapters.
  rewrite !filter_map_swap, !length_map. reflexivity.
Qed.

(** ** Course progress: new courses and the range of the figure *)

Lemma created_chapters_defaults (uuid : nat -> string) (data : CreateCourseData) :
  Forall (fun ch => Chapter.isPublished ch = false
                    /\ Chapter.isFree ch = false
                    /\ Chapter.videoUrl ch = None
                    /\ Chapter.courseId ch = uuid 0%nat)
         (created_chapters uuid data).
Proof. unfold created_chapters, mapi. apply Forall_map_from. intros. simpl. tauto. Qed.

Lemma createCourse_ok (uuid : nat -> string) (userId : string)
    (data : CreateCourseData) (st st' : db) (course : Course.t) :
  createCourse uuid userId data st = (Ok course, st') ->
  course
  = Course.mk (uuid 0%nat) userId (data_title data) (data_description data)
              (data_imageUrl data) (data_price data) false None
  /\ chapters st' = chapters st ++ created_chapters uuid data
  /\ courses st' = courses st ++ [course].
Proof.
  rewrite createCourse_rows. intros H. inversion H; subst. simpl.
  repeat split.
Qed.

(** X9. A course that has just been created has no published chapter, so for
    every user its progress figure is NaN, whatever chapters were supplied;
    the course id drawn is assumed not to be in use already. *)
Theorem createCourse_progress_nan :
  forall uuid teacher data st course st' userId,
    (forall ch, In ch (chapters st) -> Chapter.courseId ch <> uuid 0%nat) ->
    createCourse uuid teacher data st = (Ok course, st') ->
    calculateCourseProgress userId (Course.id course) st' = (Ok nan, st').
Proof.
  intros uuid teacher data st course st' userId Hfresh H.
  destruct (createCourse_ok _ _ _ _ _ _ H) as (Hcourse & Hch & _).
  assert (Hid : Course.id course = uuid 0%nat) by now subst course.
  apply calculateCourseProgress_no_published.
  assert (Hnone : filter (selected (Course.id course)) (chapters st') = []).
  { rewrite Hch, Hid, filter_app, !filter_none; [reflexivity| |].
    - intros ch Hin. unfold selected.
      pose proof (created_chapters_defaults uuid data) as Hd.
      rewrite Forall_forall in Hd. destruct (Hd ch Hin) as (-> & _).
      apply andb_false_r.
    - intros ch Hin. unfold selected.
      destruct (String.eqb_spec (Chapter.courseId ch) (uuid 0%nat)) as [E|_];
        [|reflexivity].
      exfalso. exact (Hfresh ch Hin E). }
  pose proof (counts_of_filter (published_in (Course.id course))
                (selected (Course.id course)) (chapters st')
                (selected_iff (Course.id course))) as Hc.
  now rewrite Hnone in Hc.
Qed.

Lemma createCourse_progress_nan_witness :
  calculateCourseProgress "student" "course"
    (snd (createCourse uuids "teacher" two_chapter_course empty_db))
  = (Ok nan, snd (createCourse uuids "teacher" two_chapter_course empty_db)).
Proof.
  apply (createCourse_progress_nan uuids "teacher" two_chapter_course empty_db
           (Course.mk "course" "teacher" "Rocq" None None None false None)
           _ "student").
  - intros ch [].
  - reflexivity.
Defined.

Lemma percentage_in_range_checked (N : nat) :
  (1 <= N <= checked_courses)%nat -> percentage_in_range N = true.
Proof.
  intros HN.
  assert (Hall : forallb percentage_in_range (seq 1 checked_courses) = true)
    by (vm_compute; reflexivity).
  rewrite forallb_forall in Hall. apply Hall. apply in_seq.
  unfold checked_courses in *. lia.
Qed.

Lemma float_between_spec (lo hi : Z) (x : float) :
  float_between lo hi x = true ->
  exists q, Q_of_float x = Some q
            /\ (inject_Z lo <= q)%Q /\ (q <= inject_Z hi)%Q.
Proof.
  unfold float_between. destruct (Q_of_float x) as [q|]; [|discriminate].
  intros H. apply andb_true_iff in H. destruct H as [H1 H2].
  apply Qle_bool_iff in H1, H2. now exists q.
Qed.

(** X10. For a course with between 1 and 100 published chapters the figure
    is a finite number between 0 and 100; it is exactly 100 when the user has
    completed every published chapter and exactly 0 when none. *)
Theorem calculateCourseProgress_range :
  forall st userId courseId N k,
    counts (published_in courseId) (chapters st) N ->
    counts (fun ch => published_in courseId ch /\ completed_by st userId ch)
           (chapters st) k ->
    (1 <= N <= checked_courses)%nat ->
    exists x q,
      calculateCourseProgress userId courseId st = (Ok x, st)
      /\ Q_of_float x = Some q
      /\ (0 <= q)%Q /\ (q <= 100)%Q
      /\ (k = N -> (q == 100)%Q)
      /\ (k = 0%nat -> (q == 0)%Q).
Proof.
  intros st userId courseId N k HN Hk Hrange.
  assert (Hle : (k <= N)%nat).
  { eapply counts_le; [|exact Hk|exact HN]. now intros x [Hx _]. }
  pose proof (percentage_in_range_checked N Hrange) as Hchk.
  unfold percentage_in_range in Hchk.
  apply andb_true_iff in Hchk. destruct Hchk as [Hchk H0].
  apply andb_true_iff in Hchk. destruct Hchk as [Hall H100].
  rewrite forallb_forall in Hall.
  assert (Hk_in : In k (seq 0 (S N))) by (apply in_seq; lia).
  destruct (float_between_spec _ _ _ (Hall k Hk_in)) as (q & Hq & Hlo & Hhi).
  exists (percentage k N), q.
  split; [|split; [exact Hq|split; [exact Hlo|split; [exact Hhi|split]]]].
  - rewrite calculateCourseProgress_lengths.
    rewrite (counts_filter _ (selected courseId) _ _ (selected_iff courseId) HN).
    rewrite (counts_filter _
               (fun ch => selected courseId ch
                          && existsb UserProgress.isCompleted
                                     (included st userId ch))
               _ _ (selected_and_completed_iff st userId courseId) Hk).
    reflexivity.
  - intros ->.
    destruct (float_between_spec _ _ _ H100) as (q' & Hq' & Hlo' & Hhi').
    rewrite Hq in Hq'. inversion Hq'; subst q'. now apply Qle_antisym.
  - intros ->.
    destruct (float_between_spec _ _ _ H0) as (q' & Hq' & Hlo' & Hhi').
    rewrite Hq in Hq'. inversion Hq'; subst q'. now apply Qle_antisym.
Qed.

Lemma calculateCourseProgress_range_witness :
  exists x q,
    calculateCourseProgress "U" "course" scenario = (Ok x, scenario)
    /\ Q_of_float x = Some q
    /\ (0 <= q)%Q /\ (q <= 100)%Q
    /\ (1%nat = 2%nat -> (q == 100)%Q)
    /\ (1%nat = 0%nat -> (q == 0)%Q).
Proof.
  apply (calculateCourseProgress_range scenario "U" "course" 2 1).
  - apply (counts_of_filter _ (selected "course") (chapters scenario)
             (selected_iff "course")).
  - apply (counts_of_filter _
             (fun ch => selected "course" ch
                        && existsb UserProgress.isCompleted
                                   (included scenario "U" ch))
             (chapters scenario)).
    apply selected_and_completed_iff.
  - unfold checked_courses. lia.
Defined.

(** ** Course creation: what it keeps *)

Lemma length_map_from {A B} (f : A -> nat -> B) (l : list A) :
  forall i, List.length (map_from f i l) = List.length l.
Proof. induction l as [|x l IH]; simpl; intros i; [|rewrite IH]; reflexivity. Qed.

(** X11. [createCourse] keeps chapter positions pairwise distinct within
    every course: the new course gets distinct positions and no existing
    chapter is touched; the course id drawn is assumed not to be in use. *)
Theorem createCourse_keeps_unique_positions :
  forall uuid userId data st,
    unique_positions st ->
    (forall ch, In ch (chapters st) -> Chapter.courseId ch <> uuid 0%nat) ->
    unique_positions (snd (createCourse uuid userId data st)).
Proof.
  intros uuid userId data st Hu Hfresh.
  rewrite createCourse_rows. unfold unique_positions in *. simpl.
  rewrite map_app.
  assert (Hnew : map course_position (created_chapters uuid data)
                 = map (fun i => (uuid 0%nat, Z.of_nat i))
                       (seq 0 (List.length (data_chapters data)))).
  { unfold created_chapters, mapi. rewrite map_map_from.
    unfold course_position. simpl. apply map_from_index. }
  apply NoDup_app; [exact Hu | |].
  - rewrite Hnew. apply Injective_map_NoDup; [|apply seq_NoDup].
    intros i j Hij. inversion Hij. now apply Nat2Z.inj.
  - intros [c pos] Hold Hcreated.
    apply in_map_iff in Hold. destruct Hold as (ch & Hch & Hin).
    rewrite Hnew in Hcreated. apply in_map_iff in Hcreated.
    destruct Hcreated as (i & Hi & _).
    apply (Hfresh ch Hin). unfold course_position in Hch. congruence.
Qed.

Lemma createCourse_keeps_unique_positions_witness :
  unique_positions
    (snd (createCourse uuids "teacher" two_chapter_course
            (mkdb prismaMode [] [chapter_at "A" "other course" 0] [] []))).
Proof.
  apply (createCourse_keeps_unique_positions uuids "teacher" two_chapter_course
           (mkdb prismaMode [] [chapter_at "A" "other course" 0] [] [])).
  - unfold unique_positions. simpl. repeat constructor. intros [].
  - intros ch [<-|[]]. discriminate.
Defined.

(** X12. [createCourse] only adds rows: progress records and purchases are
    unchanged, the course and chapter rows that existed are still there, in
    place and unmodified, exactly one course row and one chapter row per
    input chapter are appended, and every new chapter starts unpublished,
    not free and without a video. *)
Theorem createCourse_only_adds :
  forall uuid userId data st,
    let st' := snd (createCourse uuid userId data st) in
    userProgress st' = userProgress st
    /\ purchases st' = purchases st
    /\ firstn (List.length (courses st)) (courses st') = courses st
    /\ firstn (List.length (chapters st)) (chapters st') = chapters st
    /\ List.length (courses st') = S (List.length (courses st))
    /\ List.length (chapters st')
       = (List.length (chapters st) + List.length (data_chapters data))%nat
    /\ Forall (fun ch => Chapter.isPublished ch = false
                         /\ Chapter.isFree ch = false
                         /\ Chapter.videoUrl ch = None)
              (skipn (List.length (chapters st)) (chapters st')).
Proof.
  intros uuid userId data st st'. subst st'. rewrite createCourse_rows. simpl.
  assert (Hlen : List.length (created_chapters uuid data)
                 = List.length (data_chapters data)).
  { unfold created_chapters, mapi. apply length_map_from. }
  repeat split.
  - rewrite firstn_app, Nat.sub_diag, firstn_all. simpl. apply app_nil_r.
  - rewrite firstn_app, Nat.sub_diag, firstn_all. simpl. apply app_nil_r.
  - rewrite length_app. simpl. lia.
  - rewrite length_app, Hlen. reflexivity.
  - rewrite skipn_app, Nat.sub_diag, skipn_all. simpl.
    eapply Forall_impl; [|apply created_chapters_defaults].
    simpl. tauto.
Qed.

(** ** Checkout *)

Lemma course_findUnique_none (id : string) (st : db) :
  course_findUnique id st = None
  <-> forall c, In c (courses st) -> Course.id c <> id.
Proof.
  unfold course_findUnique. split.
  - intros H c Hin E. apply (find_none _ _ H) in Hin.
    rewrite E, String.eqb_refl in Hin. discriminate.
  - intros H. destruct (find _ _) as [c|] eqn:F; [|reflexivity].
    apply find_some in F. destruct F as [Hin E]. apply String.eqb_eq in E.
    exfalso. exact (H c Hin E).
Qed.

(** X13. [createCheckoutSession] throws "Course not found" exactly when no
    course row has the given id.  Otherwise it asks for a session whatever
    else the database holds: neither the publication flag of the course nor
    an earlier purchase by the same user is looked at.  The request has one
    line item, in quantity 1, named after a course row with that id, and
    carries the course and user ids as metadata. *)
Theorem createCheckoutSession_not_found_iff :
  forall url email userId courseId st,
    (createCheckoutSession url email userId courseId st
       = inl (Error "Course not found")
     <-> forall c, In c (courses st) -> Course.id c <> courseId)
    /\ (forall e, createCheckoutSession url email userId courseId st = inl e ->
                  e = Error "Course not found")
    /\ (forall params,
          createCheckoutSession url email userId courseId st = inr params ->
          exists course item,
            In course (courses st)
            /\ Course.id course = courseId
            /\ line_items params = [item]
            /\ product_name item = Course.title course
            /\ quantity item = 1%Z
            /\ metadata_courseId params = courseId
            /\ metadata_userId params = userId).
Proof.
  intros url email userId courseId st. unfold createCheckoutSession.
  rewrite <- course_findUnique_none.
  destruct (course_findUnique courseId st) as [course|] eqn:F.
  - split; [split; discriminate|]. split; [discriminate|].
    intros params H. inversion H; subst; clear H.
    unfold course_findUnique in F. apply find_some in F.
    destruct F as [Hin E]. apply String.eqb_eq in E.
    exists course. eexists. simpl. repeat split; auto.
  - split; [split; reflexivity|]. split; [|discriminate].
    intros e H. now inversion H.
Qed.

Lemma createCheckoutSession_not_found_iff_witness :
  Error "Course not found" = Error "Course not found".
Proof.
  apply (proj1 (proj2 (createCheckoutSession_not_found_iff
                         (Some "https://lms.example"%string) "s@example.org"
                         "student" "course" empty_db))).
  reflexivity.
Defined.

Lemma check_range_spec (P : Z -> bool) (depth : nat) :
  forall lo c,
    check_range P lo depth = true ->
    (lo <= c < lo + 2 ^ Z.of_nat depth)%Z ->
    P c = true.
Proof.
  induction depth as [|d IH]; intros lo c H Hc.
  - simpl in *. assert (c = lo) by lia. now subst.
  - cbn [check_range] in H. apply andb_true_iff in H. destruct H as [H1 H2].
    rewrite Nat2Z.inj_succ, Z.pow_succ_r in Hc by lia.
    destruct (Z_lt_ge_dec c (lo + 2 ^ Z.of_nat d)) as [Hlt|Hge].
    + apply (IH lo); [exact H1 | lia].
    + apply (IH (lo + 2 ^ Z.of_nat d)%Z); [exact H2 | lia].
Qed.

Lemma rounds_to_spec (x : float) (n : Z) :
  rounds_to x n = true ->
  Math_round x = PrimFloat.of_uint63 (Uint63.of_Z n).
Proof.
  unfold rounds_to, Math_round.
  destruct (Prim2SF x) as [| | |s m e]; try discriminate.
  intros H. apply andb_true_iff in H. destruct H as [H Hpos].
  apply andb_true_iff in H. destruct H as [He Hn].
  apply Z.ltb_lt in He, Hpos. apply Z.eqb_eq in Hn.
  destruct (Z.leb_spec 0 e); [lia|].
  cbv zeta. rewrite Hn.
  destruct (Z.eqb_spec n 0); [lia|].
  destruct (Z.ltb_spec n 0); [lia|reflexivity].
Qed.

Lemma cents_recovered_checked (cents : Z) :
  (1 <= cents <= 65536)%Z -> cents_recovered cents = true.
Proof.
  intros H. apply (check_range_spec cents_recovered checked_cents_depth 1);
    [vm_compute; reflexivity | unfold checked_cents_depth; simpl; lia].
Qed.

(** X14. For a course priced at a whole number of hundredths up to 655.36
    (the price column holding the number nearest to it), the unit amount of
    the session request is exactly that number of hundredths: multiplying by
    100 and rounding undoes the representation error of the price. *)
Theorem createCheckoutSession_unit_amount_cents :
  forall url email userId courseId st course cents,
    course_findUnique courseId st = Some course ->
    Course.price course = Some (price_of_cents cents) ->
    (0 <= cents <= 65536)%Z ->
    exists params item,
      createCheckoutSession url email userId courseId st = inr params
      /\ line_items params = [item]
      /\ unit_amount item = PrimFloat.of_uint63 (Uint63.of_Z cents).
Proof.
  intros url email userId courseId st course cents Hfind Hprice Hcents.
  unfold createCheckoutSession. rewrite Hfind, Hprice.
  do 2 eexists. simpl.
  split; [reflexivity|]. split; [reflexivity|]. simpl.
  destruct (Z.eq_dec cents 0) as [->|Hnz]; [reflexivity|].
  apply rounds_to_spec. apply cents_recovered_checked. lia.
Qed.

(** A course priced 19.99. *)
Lemma createCheckoutSession_unit_amount_cents_witness :
  exists params item,
    createCheckoutSession None "s@example.org" "student" "course"
      (mkdb prismaMode
            [Course.mk "course" "teacher" "Rocq" None None
                       (Some (price_of_cents 1999)) true None]
            [] [] [])
    = inr params
    /\ line_items params = [item]
    /\ unit_amount item = PrimFloat.of_uint63 (Uint63.of_Z 1999).
Proof.
  apply (createCheckoutSession_unit_amount_cents None "s@example.org"
           "student" "course" _
           (Course.mk "course" "teacher" "Rocq" None None
                      (Some (price_of_cents 1999)) true None)
           1999).
  - reflexivity.
  - reflexivity.
  - lia.
Defined.

Lemma find_app_fresh {A} (f : A -> bool) (l : list A) (x : A) :
  (forall y, In y l -> f y = false) -> f x = true ->
  find f (l ++ [x]) = Some x.
Proof.
  intros Hl Hx. induction l as [|a l IH]; simpl.
  - now rewrite Hx.
  - rewrite (Hl a) by now left. apply IH. intros y Hy. apply Hl. now right.
Qed.

(** X15. A course can be checked out as soon as it is created, although it
    is not published: the request names the title given to [createCourse],
    and a course created without a price is offered for a unit amount of
    0.  The course id drawn is assumed not to be in use. *)
Theorem createCourse_then_checkout :
  forall uuid teacher data st course st' url email userId,
    (forall c, In c (courses st) -> Course.id c <> uuid 0%nat) ->
    createCourse uuid teacher data st = (Ok course, st') ->
    exists params item,
      createCheckoutSession url email userId (Course.id course) st' = inr params
      /\ Course.isPublished course = false
      /\ line_items params = [item]
      /\ product_name item = data_title data
      /\ unit_amount item
         = Math_round (PrimFloat.mul (to_number (data_price data)) 100%float)
      /\ (data_price data = None -> unit_amount item = zero).
Proof.
  intros uuid teacher data st course st' url email userId Hfresh H.
  destruct (createCourse_ok _ _ _ _ _ _ H) as (Hcourse & _ & Hcourses).
  assert (Hfind : course_findUnique (Course.id course) st' = Some course).
  { unfold course_findUnique. rewrite Hcourses. apply find_app_fresh.
    - intros c Hin. apply String.eqb_neq. subst course. simpl.
      now apply Hfresh.
    - apply String.eqb_refl. }
  unfold createCheckoutSession. rewrite Hfind.
  do 2 eexists. split; [reflexivity|]. subst course. simpl.
  repeat split. intros ->. reflexivity.
Qed.

Lemma createCourse_then_checkout_witness :
  exists params item,
    createCheckoutSession None "s@example.org" "student" "course"
      (snd (createCourse uuids "teacher" two_chapter_course empty_db))
    = inr params
    /\ false = false
    /\ line_items params = [item]
    /\ product_name item = "Rocq"%string
    /\ unit_amount item = Math_round (PrimFloat.mul zero 100%float)
    /\ (@None float = None -> unit_amount item = zero).
Proof.
  apply (createCourse_then_checkout uuids "teacher" two_chapter_course empty_db
           (Course.mk "course" "teacher" "Rocq" None None None false None)
           _ None "s@example.org" "student").
  - intros c [].
  - reflexivity.
Defined.

(** ** Progress records and the figure: what a call leaves alone *)

Lemma trackProgress_other_rows (env : Env) (userId chapterId : string)
    (flag : bool) (st : db) (p : UserProgress.t) :
  has_key userId chapterId p = false ->
  In p (userProgress (snd (trackProgress env userId chapterId flag st)))
  <-> In p (userProgress st).
Proof.
  intros Hp. rewrite trackProgress_store.
  destruct (served env); [|reflexivity].
  destruct (find (has_key userId chapterId) (userProgress st)).
  - simpl. rewrite in_map_iff. split.
    + intros (q & Hq & Hin). unfold overwrite in Hq.
      destruct (has_key userId chapterId q) eqn:K; [|now subst].
      subst p. unfold has_key in Hp, K. simpl in Hp. congruence.
    + intros Hin. exists p. split; [now apply overwrite_other | exact Hin].
  - assert (Hnew : In p (userProgress st ++ [new_row env userId chapterId flag])
                   <-> In p (userProgress st)).
    { rewrite in_app_iff. simpl. split; [|tauto].
      intros [H|[H|[]]]; [exact H|].
      subst p. rewrite has_key_new_row in Hp. discriminate. }
    destruct (relationMode st), (chapter_exists chapterId st); simpl;
      try exact Hnew; reflexivity.
Qed.

Lemma completed_by_other_pair (env : Env) (userId chapterId : string)
    (flag : bool) (st : db) (other : string) (ch : Chapter.t) :
  other <> userId \/ Chapter.id ch <> chapterId ->
  (completed_by (snd (trackProgress env userId chapterId flag st)) other ch
   <-> completed_by st other ch).
Proof.
  intros Hdiff.
  assert (Hkey : forall p,
             UserProgress.userId p = other ->
             UserProgress.chapterId p = Chapter.id ch ->
             has_key userId chapterId p = false).
  { intros p Hu Hc. unfold has_key.
    destruct (String.eqb_spec (UserProgress.userId p) userId) as [E1|_];
      [|reflexivity].
    destruct (String.eqb_spec (UserProgress.chapterId p) chapterId) as [E2|_];
      [|reflexivity].
    exfalso. destruct Hdiff as [H|H]; apply H; congruence. }
  unfold completed_by. split.
  - intros (p & Hin & Hu & Hc & Hflag). exists p.
    split; [|auto]. now apply (trackProgress_other_rows env userId chapterId
                                 flag st p (Hkey p Hu Hc)).
  - intros (p & Hin & Hu & Hc & Hflag). exists p.
    split; [|auto]. now apply (trackProgress_other_rows env userId chapterId
                                 flag st p (Hkey p Hu Hc)).
Qed.

(** X16. A call for one (user, chapter) pair changes the completion of no
    other pair: for another user, or for a chapter with another id, the
    chapter counts as completed after the call exactly when it did before. *)
Theorem trackProgress_keeps_other_completions :
  forall env userId chapterId flag st other ch,
    other <> userId \/ Chapter.id ch <> chapterId ->
    (completed_by (snd (trackProgress env userId chapterId flag st)) other ch
     <-> completed_by st other ch).
Proof.
  intros env userId chapterId flag st other ch Hdiff.
  now apply completed_by_other_pair.
Qed.

Lemma trackProgress_keeps_other_completions_witness :
  completed_by
    (snd (trackProgress (client_at 1000 "uuid1") "U" "chapter2" true scenario))
    "U" (Chapter.mk "chapter1" "One" None None 0 true false "course")
  <-> completed_by scenario "U"
        (Chapter.mk "chapter1" "One" None None 0 true false "course").
Proof.
  apply (trackProgress_keeps_other_completions (client_at 1000 "uuid1") "U"
           "chapter2" true scenario "U"
           (Chapter.mk "chapter1" "One" None None 0 true false "course")).
  right. discriminate.
Defined.

Lemma filter_same_on {A} (f g : A -> bool) (l : list A) :
  (forall x, In x l -> f x = g x) -> filter f l = filter g l.
Proof.
  induction l as [|x l IH]; simpl; intros H; [reflexivity|].
  rewrite (H x) by now left.
  rewrite IH; [reflexivity|]. intros y Hy. apply H. now right.
Qed.

Lemma existsb_completed_iff (st st' : db) (userId : string) (ch : Chapter.t) :
  (completed_by st' userId ch <-> completed_by st userId ch) ->
  existsb UserProgress.isCompleted (included st' userId ch)
  = existsb UserProgress.isCompleted (included st userId ch).
Proof.
  intros H. rewrite <- !some_completed_iff in H.
  destruct (existsb _ (included st' userId ch)),
           (existsb _ (included st userId ch)); intuition congruence.
Qed.

(** X17. Only published chapters of the course matter to its figure: when
    the chapter id given to [trackProgress] is not that of a published
    chapter of the course (an unpublished chapter, a chapter of another
    course, an id that names nothing), the figure of the course is the same
    after the call as before, for every user. *)
Theorem trackProgress_outside_course_keeps_progress :
  forall env userId chapterId flag reader courseId st,
    (forall ch, In ch (chapters st) -> published_in courseId ch ->
                Chapter.id ch <> chapterId) ->
    fst (calculateCourseProgress reader courseId
           (snd (trackProgress env userId chapterId flag st)))
    = fst (calculateCourseProgress reader courseId st).
Proof.
  intros env userId chapterId flag reader courseId st Hout.
  rewrite !calculateCourseProgress_lengths. cbn [fst].
  destruct (trackProgress_keeps_tables env userId chapterId flag st)
    as (_ & _ & Hch & _).
  rewrite Hch. do 3 f_equal.
  apply filter_same_on. intros ch Hin.
  destruct (selected courseId ch) eqn:S; [|reflexivity]. simpl.
  apply existsb_completed_iff.
  apply completed_by_other_pair. right.
  apply Hout; [exact Hin | now apply selected_iff].
Qed.

Lemma trackProgress_outside_course_keeps_progress_witness :
  fst (calculateCourseProgress "U" "course"
         (snd (trackProgress (client_at 1000 "uuid1") "U" "chapter3" true
                 scenario)))
  = fst (calculateCourseProgress "U" "course" scenario).
Proof.
  apply (trackProgress_outside_course_keeps_progress (client_at 1000 "uuid1")
           "U" "chapter3" true "U" "course" scenario).
  intros ch [<-|[<-|[<-|[]]]] [_ Hpub]; simpl in *; discriminate.
Defined.
